(** * Pace timer: clock core, request handlers and progress mapping

    A shallow embedding of [pace_timer.py].  The module-level globals and
    the wall clock form an explicit [World]; every Python function that
    touches them is a computation in a small monad whose outcomes are a
    normal return, a raised exception, or a thread that blocks forever on
    the non-reentrant [threading.Lock].

    Numbers: Python [int] is [Z].  Finite Python [float] values (seconds,
    epochs, fractions) are exact rationals [Q]; rounding error of binary
    floating point is not modelled, so equalities between clock readings
    are stated with [==] on [Q].  The conversion of an int to a float
    ([float_of_int]) raises [OverflowError] beyond the float range, as
    Python does; within the range its value is taken exactly. *)

From Stdlib Require Import ZArith QArith Qround Lqa Lia List String Ascii Bool.
Import ListNotations.

Local Open Scope string_scope.
Local Open Scope Z_scope.

(** ** Python values and builtins *)

Inductive exn : Type :=
| ValueError (msg : string)
| TypeError (msg : string)
| OverflowError (msg : string)
| IndexError (msg : string).

(** [str(e)] *)
Definition exn_str (e : exn) : string :=
  match e with
  | ValueError m | TypeError m | OverflowError m | IndexError m => m
  end.

(** A Python float as [float(str)] can produce it. *)
Inductive pyfloat : Type :=
| Finite (q : Q)
| PosInf
| NegInf
| NaN.

Definition Qltb (a b : Q) : bool := negb (Qle_bool b a).

(** [a < b] on floats; every comparison with nan is false. *)
Definition flt_lt (a b : pyfloat) : bool :=
  match a, b with
  | NaN, _ | _, NaN => false
  | _, NegInf => false
  | NegInf, _ => true
  | PosInf, _ => false
  | Finite _, PosInf => true
  | Finite x, Finite y => Qltb x y
  end.

(** Python's two-argument [max]/[min] keep the first argument unless the
    second is strictly greater/smaller. *)
Definition py_max (a b : Q) : Q := if Qltb a b then b else a.
Definition py_min (a b : Q) : Q := if Qltb b a then b else a.
Definition flt_max (a b : pyfloat) : pyfloat := if flt_lt a b then b else a.
Definition flt_min (a b : pyfloat) : pyfloat := if flt_lt b a then b else a.

(** [int(x)] on a finite float truncates toward zero. *)
Definition Qtrunc (q : Q) : Z := Z.quot (Qnum q) (Zpos (Qden q)).

(** [int(f)] for a float [f]. *)
Definition int_of_float (f : pyfloat) : exn + Z :=
  match f with
  | Finite q => inr (Qtrunc q)
  | PosInf | NegInf => inl (OverflowError "cannot convert float infinity to integer")
  | NaN => inl (ValueError "cannot convert float NaN to integer")
  end.

(** [float(n)] for an int [n], also where Python converts an int operand of
    a float operation.  An int that rounds beyond the largest float, that
    is one of absolute value [>= 2^1024 - 2^970], raises [OverflowError]. *)
Definition float_int_limit : Z := 2 ^ 1024 - 2 ^ 970.

Definition float_of_int (n : Z) : exn + Q :=
  if Z.abs n <? float_int_limit then inr (inject_Z n)
  else inl (OverflowError "int too large to convert to float").

(** [lst[i]] with Python's negative indices. *)
Definition list_index {A : Type} (l : list A) (i : Z) : exn + A :=
  let n := Z.of_nat (List.length l) in
  let j := if i <? 0 then i + n else i in
  if (j <? 0) || (n <=? j) then inl (IndexError "list index out of range")
  else match nth_error l (Z.to_nat j) with
       | Some a => inr a
       | None => inl (IndexError "list index out of range")
       end.

(** [range(n)] and [enumerate(l)] *)
Definition range (n : Z) : list Z := map Z.of_nat (seq 0 (Z.to_nat n)).
Definition enumerate {A : Type} (l : list A) : list (Z * A) :=
  combine (range (Z.of_nat (List.length l))) l.

(** ** Shared state *)

Record World : Type := mkWorld {
  wall_clock : Q;               (* what [time.time()] returns *)
  state_lock : bool;            (* [threading.Lock()]: [true] when held *)
  TOTAL_SECONDS : Z;
  NUM_ENDS : Z;
  LOGO_URL : string;
  MESSAGE_TEXT : string;
  _start_epoch : Q;
  _manual_elapsed_offset : Q;
  _paused : bool;
  _pause_epoch : option Q
}.

Definition set_wall_clock (t : Q) (w : World) : World :=
  mkWorld t (state_lock w) (TOTAL_SECONDS w) (NUM_ENDS w) (LOGO_URL w)
    (MESSAGE_TEXT w) (_start_epoch w) (_manual_elapsed_offset w) (_paused w)
    (_pause_epoch w).
Definition set_state_lock (b : bool) (w : World) : World :=
  mkWorld (wall_clock w) b (TOTAL_SECONDS w) (NUM_ENDS w) (LOGO_URL w)
    (MESSAGE_TEXT w) (_start_epoch w) (_manual_elapsed_offset w) (_paused w)
    (_pause_epoch w).
Definition set_TOTAL_SECONDS (n : Z) (w : World) : World :=
  mkWorld (wall_clock w) (state_lock w) n (NUM_ENDS w) (LOGO_URL w)
    (MESSAGE_TEXT w) (_start_epoch w) (_manual_elapsed_offset w) (_paused w)
    (_pause_epoch w).
Definition set_NUM_ENDS (n : Z) (w : World) : World :=
  mkWorld (wall_clock w) (state_lock w) (TOTAL_SECONDS w) n (LOGO_URL w)
    (MESSAGE_TEXT w) (_start_epoch w) (_manual_elapsed_offset w) (_paused w)
    (_pause_epoch w).
Definition set_start_epoch (t : Q) (w : World) : World :=
  mkWorld (wall_clock w) (state_lock w) (TOTAL_SECONDS w) (NUM_ENDS w)
    (LOGO_URL w) (MESSAGE_TEXT w) t (_manual_elapsed_offset w) (_paused w)
    (_pause_epoch w).
Definition set_manual_elapsed_offset (x : Q) (w : World) : World :=
  mkWorld (wall_clock w) (state_lock w) (TOTAL_SECONDS w) (NUM_ENDS w)
    (LOGO_URL w) (MESSAGE_TEXT w) (_start_epoch w) x (_paused w)
    (_pause_epoch w).
Definition set_paused (b : bool) (w : World) : World :=
  mkWorld (wall_clock w) (state_lock w) (TOTAL_SECONDS w) (NUM_ENDS w)
    (LOGO_URL w) (MESSAGE_TEXT w) (_start_epoch w) (_manual_elapsed_offset w)
    b (_pause_epoch w).
Definition set_pause_epoch (p : option Q) (w : World) : World :=
  mkWorld (wall_clock w) (state_lock w) (TOTAL_SECONDS w) (NUM_ENDS w)
    (LOGO_URL w) (MESSAGE_TEXT w) (_start_epoch w) (_manual_elapsed_offset w)
    (_paused w) p.

(** ** The monad of handler code *)

Inductive outcome (A : Type) : Type :=
| Ret (a : A) (w : World)        (* returned [a] *)
| Raise (e : exn) (w : World)    (* raised [e] *)
| Hang (w : World).              (* blocked forever acquiring the lock *)
Arguments Ret {A} a w.
Arguments Raise {A} e w.
Arguments Hang {A} w.

Definition M (A : Type) : Type := World -> outcome A.

Definition ret {A : Type} (a : A) : M A := fun w => Ret a w.
Definition raise {A : Type} (e : exn) : M A := fun w => Raise e w.
Definition bind {A B : Type} (m : M A) (k : A -> M B) : M B :=
  fun w => match m w with
           | Ret a w' => k a w'
           | Raise e w' => Raise e w'
           | Hang w' => Hang w'
           end.
Definition lift {A : Type} (r : exn + A) : M A :=
  match r with inl e => raise e | inr a => ret a end.

Declare Scope py_scope.
Delimit Scope py_scope with py.
Notation "x <- m ;; k" := (bind m (fun x => k))
  (at level 61, m at next level, right associativity) : py_scope.
Notation "m ;; k" := (bind m (fun _ => k))
  (at level 61, right associativity) : py_scope.
Local Open Scope py_scope.

Definition gets {A : Type} (f : World -> A) : M A := fun w => Ret (f w) w.
Definition modify (f : World -> World) : M unit := fun w => Ret tt (f w).

(** [time.time()] *)
Definition time_time : M Q := gets wall_clock.

(** Wall-clock time passing between two calls ([d] seconds). *)
Definition elapse (d : Q) : M unit :=
  modify (fun w => set_wall_clock (wall_clock w + d)%Q w).

(** [with state_lock: body].  The model follows one thread through one
    call at a time.  [threading.Lock] is not reentrant, so a thread that
    acquires it while holding it blocks; it then never reaches its own
    release, and every thread that finds the lock held in such a state
    blocks as well.  Leaving the block, by return or by exception, releases
    the lock. *)
Definition with_state_lock {A : Type} (body : M A) : M A :=
  fun w =>
    if state_lock w then Hang w
    else match body (set_state_lock true w) with
         | Ret a w' => Ret a (set_state_lock false w')
         | Raise e w' => Raise e (set_state_lock false w')
         | Hang w' => Hang w'
         end.

(** [try: body  except Exception as e: handler(e)] *)
Definition try_except {A : Type} (body : M A) (handler : exn -> M A) : M A :=
  fun w => match body w with
           | Ret a w' => Ret a w'
           | Raise e w' => handler e w'
           | Hang w' => Hang w'
           end.

(** ** Clock core *)

Definition total_seconds : M Z := with_state_lock (gets TOTAL_SECONDS).
Definition num_ends : M Z := with_state_lock (gets NUM_ENDS).

Definition now_elapsed : M Q :=
  with_state_lock
    (paused <- gets _paused ;;
     if paused then
       pe <- gets _pause_epoch ;;
       match pe with
       | None =>
           raise (TypeError "unsupported operand type(s) for -: 'NoneType' and 'float'")
       | Some p =>
           st <- gets _start_epoch ;;
           off <- gets _manual_elapsed_offset ;;
           ret (py_max 0 ((p - st) + off))%Q
       end
     else
       t <- time_time ;;
       st <- gets _start_epoch ;;
       off <- gets _manual_elapsed_offset ;;
       ret (py_max 0 ((t - st) + off))%Q).

Definition set_elapsed (seconds : Q) : M unit :=
  with_state_lock
    (t <- time_time ;;
     modify (set_start_epoch t) ;;
     modify (set_manual_elapsed_offset seconds)).

Definition reset_timer : M unit :=
  with_state_lock
    (t <- time_time ;;
     modify (set_start_epoch t) ;;
     modify (set_manual_elapsed_offset 0%Q)).

Definition pause_timer : M unit :=
  with_state_lock
    (paused <- gets _paused ;;
     if negb paused then
       modify (set_paused true) ;;
       t <- time_time ;;
       modify (set_pause_epoch (Some t))
     else ret tt).

Definition resume_timer : M unit :=
  with_state_lock
    (paused <- gets _paused ;;
     if paused then
       t <- time_time ;;
       pe <- gets _pause_epoch ;;
       match pe with
       | None =>
           raise (TypeError "unsupported operand type(s) for -: 'float' and 'NoneType'")
       | Some p =>
           let paused_duration := (t - p)%Q in
           st <- gets _start_epoch ;;
           modify (set_start_epoch (st + paused_duration)%Q) ;;
           modify (set_paused false) ;;
           modify (set_pause_epoch None)
       end
     else ret tt).

(** ** Time strings *)

(** Whitespace removed by [str.strip()] (the ASCII part of it). *)
Definition is_space (c : ascii) : bool :=
  let n := nat_of_ascii c in
  ((9 <=? n) && (n <=? 13) || (28 <=? n) && (n <=? 32))%nat.

Fixpoint lstrip (s : string) : string :=
  match s with
  | String c rest => if is_space c then lstrip rest else s
  | EmptyString => EmptyString
  end.

Definition string_rev (s : string) : string :=
  string_of_list_ascii (rev (list_ascii_of_string s)).

Definition strip (s : string) : string :=
  string_rev (lstrip (string_rev (lstrip s))).

(** [s.split(":")] *)
Fixpoint split_colon (s : string) : list string :=
  match s with
  | EmptyString => [EmptyString]
  | String c rest =>
      if Ascii.eqb c ":"%char then EmptyString :: split_colon rest
      else match split_colon rest with
           | p :: ps => String c p :: ps
           | [] => [String c EmptyString]
           end
  end.

(** ** HTTP layer: requests and JSON responses *)

Inductive jval : Type :=
| JBool (b : bool)
| JInt (n : Z)
| JStr (s : string).

(** [jsonify({...})] with an HTTP status (200 when the handler gives none) *)
Definition json : Type := list (string * jval).
Definition response : Type := (json * Z)%type.

(** [request.args]: the query parameters in order; [get] takes the first. *)
Definition request_args : Type := list (string * string).
Fixpoint args_get (key : string) (args : request_args) : option string :=
  match args with
  | [] => None
  | (k, v) :: rest => if String.eqb k key then Some v else args_get key rest
  end.

(** ** Display loop: boxes row, fill and pointer *)

Record Rect : Type := mkRect {
  rect_left : Z;
  rect_top : Z;
  rect_width : Z;
  rect_height : Z
}.

Section Display.

(** Screen geometry fixed at start-up from the display size. *)
Variables grid_width box_margin grid_h grid_top grid_bottom grid_left : Z.

Definition recompute_boxes (N : Z) : list Rect :=
  let N := Z.max 1 N in
  let box_w := Z.quot (grid_width - (N + 1) * box_margin) N in
  let box_h := Z.min grid_h (grid_bottom - grid_top) in
  let box_y := grid_top + (grid_bottom - grid_top - box_h) / 2 in
  map (fun i =>
         let x := grid_left + box_margin + i * (box_w + box_margin) in
         mkRect x box_y box_w box_h)
      (range N).

End Display.

(** The numbers of one frame, in the order the loop computes them. *)
Record Frame : Type := mkFrame {
  frac : Q;
  end_units : Q;
  full_boxes : Z;
  partial : Q;
  fill_ws : list Z;            (* [fill_w] of each box, left to right *)
  current_idx : Z;
  current_rect : exn + Rect    (* [box_rects[current_idx]] *)
}.

Definition fill_w (full_boxes : Z) (partial : Q) (idx : Z) (rect : Rect) : Z :=
  if idx <? full_boxes then rect_width rect - 6
  else if idx =? full_boxes
       then Qtrunc (inject_Z (rect_width rect - 6) * partial)
       else 0.

(** The numbers of the boxes row once [float(total_seconds())] has given a
    float: [total] stands for that float here.  [boxes_row] below puts the
    conversion, which can raise, in front. *)
Definition draw_boxes (el : Q) (total : Z) (box_rects : list Rect) : Frame :=
  let tot := if total =? 0 then 1%Q else inject_Z total in
  let frac := py_max 0 (py_min 1 (el / tot)) in
  let N := Z.of_nat (List.length box_rects) in
  let end_units := (frac * inject_Z N)%Q in
  let full_boxes := Qtrunc end_units in
  let partial := (end_units - inject_Z full_boxes)%Q in
  let fills :=
    map (fun ir => fill_w full_boxes partial (fst ir) (snd ir))
        (enumerate box_rects) in
  let current_idx := Z.min (N - 1) (Z.max 0 full_boxes) in
  mkFrame frac end_units full_boxes partial fills current_idx
          (list_index box_rects current_idx).

(** [tot = float(total_seconds()) or 1.0] and what follows it: the
    conversion raises [OverflowError] for a total beyond the float range,
    outside any [try]; otherwise the frame is computed. *)
Definition boxes_row (el : Q) (total : Z) (box_rects : list Rect)
  : exn + Frame :=
  match float_of_int total with
  | inl e => inl e
  | inr _ => inr (draw_boxes el total box_rects)
  end.

(** SPACE key in the display loop:
    [with state_lock: if _paused: resume_timer() else: pause_timer()] *)
Definition key_space : M unit :=
  with_state_lock
    (paused <- gets _paused ;;
     if paused then resume_timer else pause_timer).

Section Handlers.

(** The builtins [float(str)] and [int(str)]: what they accept is Python's
    business; the handlers only see a value or the exception raised. *)
Variable float_of_str : string -> exn + pyfloat.
Variable int_of_str : string -> exn + Z.

Definition parse_hms_to_seconds (s : string) : exn + Z :=
  match split_colon (strip s) with
  | [p0] => int_of_str p0
  | [m; sec] =>
      match int_of_str m with
      | inl e => inl e
      | inr mv =>
          match int_of_str sec with
          | inl e => inl e
          | inr sv => inr (mv * 60 + sv)
          end
      end
  | [h; m; sec] =>
      match int_of_str h with
      | inl e => inl e
      | inr hv =>
          match int_of_str m with
          | inl e => inl e
          | inr mv =>
              match int_of_str sec with
              | inl e => inl e
              | inr sv => inr (hv * 3600 + mv * 60 + sv)
              end
          end
      end
  | _ => inl (ValueError "Invalid time format")
  end.

Definition status : M response :=
  e <- now_elapsed ;;
  let el := Qtrunc e in
  tot <- total_seconds ;;
  let rem := Z.max 0 (tot - el) in
  pl <- with_state_lock (paused <- gets _paused ;;
                         logo <- gets LOGO_URL ;;
                         ret (paused, logo)) ;;
  n <- num_ends ;;
  msg <- gets MESSAGE_TEXT ;;
  ret ([("elapsed_seconds", JInt el);
        ("remaining_seconds", JInt rem);
        ("total_seconds", JInt tot);
        ("num_ends", JInt n);
        ("paused", JBool (fst pl));
        ("logo_url", JStr (snd pl));
        ("message", JStr msg)], 200).

Definition reset : M response :=
  reset_timer ;;
  ret ([("ok", JBool true); ("message", JStr "timer reset")], 200).

Definition pause : M response :=
  pause_timer ;;
  ret ([("ok", JBool true); ("message", JStr "timer paused")], 200).

Definition resume : M response :=
  resume_timer ;;
  ret ([("ok", JBool true); ("message", JStr "timer resumed")], 200).

Definition rejection (msg : string) : response :=
  ([("ok", JBool false); ("error", JStr msg)], 400).

(** [max(0.0, min(rem, ftot))] for [ftot = float(tot)]; the outer [max]
    with first argument [0.0] always yields a finite float (lemma
    [clamp_remaining_eq]). *)
Definition clamp_remaining_flt (rem : pyfloat) (ftot : Q) : pyfloat :=
  flt_max (Finite 0) (flt_min rem (Finite ftot)).
Definition clamp_remaining (rem : pyfloat) (ftot : Q) : Q :=
  match clamp_remaining_flt rem ftot with
  | Finite r => r
  | _ => 0%Q
  end.

(** The [try] block of [set_remaining]; [parsed] is the branch on which
    query parameter is present.  [float(tot)] can raise [OverflowError],
    which the [except] turns into a rejection; in [tot - rem] the int
    operand is converted the same way, to the same float. *)
Definition set_remaining_try (tot : Z) (parsed : M pyfloat) : M response :=
  try_except
    (rem <- parsed ;;
     ftot <- lift (float_of_int tot) ;;
     let rem := clamp_remaining rem ftot in
     let elapsed_to_set := (ftot - rem)%Q in
     set_elapsed elapsed_to_set ;;
     ret ([("ok", JBool true); ("message", JStr "remaining set");
           ("remaining_seconds", JInt (Qtrunc rem))], 200))
    (fun e => ret (rejection (exn_str e))).

Definition set_remaining (args : request_args) : M response :=
  tot <- total_seconds ;;
  let seconds_param := args_get "seconds" args in
  let time_param := args_get "time" args in
  match seconds_param, time_param with
  | None, None => ret (rejection "Provide seconds or time query param")
  | Some s, _ => set_remaining_try tot (lift (float_of_str s))
  | None, Some t =>
      set_remaining_try tot
        (n <- lift (parse_hms_to_seconds t) ;;
         f <- lift (float_of_int n) ;;
         ret (Finite f))
  end.

(** The [try] block of [set_total]. *)
Definition set_total_try (parsed : M Z) : M response :=
  try_except
    (new_total <- parsed ;;
     if new_total <=? 0 then ret (rejection "total must be > 0")
     else
       el <- now_elapsed ;;
       with_state_lock
         (modify (set_TOTAL_SECONDS new_total) ;;
          total <- gets TOTAL_SECONDS ;;
          if Qltb (inject_Z total) el
          then set_elapsed (inject_Z total)
          else ret tt) ;;
       tot <- total_seconds ;;
       ret ([("ok", JBool true); ("total_seconds", JInt tot)], 200))
    (fun e => ret (rejection (exn_str e))).

Definition set_total (args : request_args) : M response :=
  let seconds_param := args_get "seconds" args in
  let time_param := args_get "time" args in
  match seconds_param, time_param with
  | None, None => ret (rejection "Provide seconds or time query param")
  | Some s, _ =>
      set_total_try (f <- lift (float_of_str s) ;; lift (int_of_float f))
  | None, Some t => set_total_try (lift (parse_hms_to_seconds t))
  end.

Definition set_ends (args : request_args) : M response :=
  match args_get "count" args with
  | None | Some EmptyString => ret (rejection "Provide count=N")
  | Some count =>
      try_except
        (n <- lift (int_of_str count) ;;
         if n <? 1 then ret (rejection "count must be >= 1")
         else
           with_state_lock (modify (set_NUM_ENDS n)) ;;
           ne <- num_ends ;;
           ret ([("ok", JBool true); ("num_ends", JInt ne)], 200))
        (fun e => ret (rejection (exn_str e)))
  end.

Definition add_time : M response :=
  try_except
    (current_elapsed <- now_elapsed ;;
     let new_elapsed := (current_elapsed + 60)%Q in
     set_elapsed new_elapsed ;;
     ret ([("ok", JBool true); ("message", JStr "Added 1 minute");
           ("elapsed_seconds", JInt (Qtrunc new_elapsed))], 200))
    (fun e => ret (rejection (exn_str e))).

Definition subtract_time : M response :=
  try_except
    (current_elapsed <- now_elapsed ;;
     let new_elapsed := py_max 0 (current_elapsed - 60)%Q in
     set_elapsed new_elapsed ;;
     ret ([("ok", JBool true); ("message", JStr "Subtracted 1 minute");
           ("elapsed_seconds", JInt (Qtrunc new_elapsed))], 200))
    (fun e => ret (rejection (exn_str e))).


(** ** Requests, reachable states *)

(** Process start: [_start_epoch = time.time()], no offset, running. *)
Definition initial (t0 : Q) (total ends : Z) (logo msg : string) : World :=
  mkWorld t0 false total ends logo msg t0 0%Q false None.

(** The state a request or a frame may find: nobody holds the lock, and a
    paused clock has its pause instant. *)
Definition wf (w : World) : Prop :=
  state_lock w = false /\
  (_paused w = true -> exists p, _pause_epoch w = Some p).

Inductive op : Type :=
| OpReset
| OpPause
| OpResume
| OpSetElapsed (x : Q)
| OpSetRemaining (args : request_args)
| OpSetTotal (args : request_args)
| OpSetEnds (args : request_args)
| OpAddTime
| OpSubtractTime
| OpStatus.

Definition run_op (o : op) : M unit :=
  match o with
  | OpReset => reset ;; ret tt
  | OpPause => pause ;; ret tt
  | OpResume => resume ;; ret tt
  | OpSetElapsed x => set_elapsed x
  | OpSetRemaining args => set_remaining args ;; ret tt
  | OpSetTotal args => set_total args ;; ret tt
  | OpSetEnds args => set_ends args ;; ret tt
  | OpAddTime => add_time ;; ret tt
  | OpSubtractTime => subtract_time ;; ret tt
  | OpStatus => status ;; ret tt
  end.

(** States reached from process start by operations that completed, with
    wall-clock time passing in between. *)
Inductive reachable : World -> Prop :=
| reach_initial : forall t0 total ends logo msg,
    reachable (initial t0 total ends logo msg)
| reach_op : forall w o w',
    reachable w -> run_op o w = Ret tt w' -> reachable w'
| reach_elapse : forall w d w',
    reachable w -> (0 <= d)%Q -> elapse d w = Ret tt w' -> reachable w'.

(** Invalid input to the three validating endpoints.  A time string is
    consulted only when no [seconds] parameter is given. *)
Inductive malformed_time (t : string) : Prop :=
| mt_part_count :
    ~ (1 <= List.length (split_colon (strip t)) <= 3)%nat -> malformed_time t
| mt_field : forall e, parse_hms_to_seconds t = inl e -> malformed_time t.

Inductive request : Type :=
| SetRemaining (args : request_args)
| SetTotal (args : request_args)
| SetEnds (args : request_args).

Definition handle (r : request) : M response :=
  match r with
  | SetRemaining args => set_remaining args
  | SetTotal args => set_total args
  | SetEnds args => set_ends args
  end.

Inductive invalid : request -> Prop :=
| inv_remaining_missing : forall args,
    args_get "seconds" args = None -> args_get "time" args = None ->
    invalid (SetRemaining args)
| inv_remaining_seconds : forall args s e,
    args_get "seconds" args = Some s -> float_of_str s = inl e ->
    invalid (SetRemaining args)
| inv_remaining_time : forall args t,
    args_get "seconds" args = None -> args_get "time" args = Some t ->
    malformed_time t -> invalid (SetRemaining args)
| inv_total_missing : forall args,
    args_get "seconds" args = None -> args_get "time" args = None ->
    invalid (SetTotal args)
| inv_total_seconds : forall args s e,
    args_get "seconds" args = Some s -> float_of_str s = inl e ->
    invalid (SetTotal args)
| inv_total_not_integer : forall args s f e,
    args_get "seconds" args = Some s -> float_of_str s = inr f ->
    int_of_float f = inl e -> invalid (SetTotal args)
| inv_total_seconds_nonpositive : forall args s f n,
    args_get "seconds" args = Some s -> float_of_str s = inr f ->
    int_of_float f = inr n -> n <= 0 -> invalid (SetTotal args)
| inv_total_time : forall args t,
    args_get "seconds" args = None -> args_get "time" args = Some t ->
    malformed_time t -> invalid (SetTotal args)
| inv_total_time_nonpositive : forall args t n,
    args_get "seconds" args = None -> args_get "time" args = Some t ->
    parse_hms_to_seconds t = inr n -> n <= 0 -> invalid (SetTotal args)
| inv_ends_missing : forall args,
    args_get "count" args = None -> invalid (SetEnds args)
| inv_ends_empty : forall args,
    args_get "count" args = Some EmptyString -> invalid (SetEnds args)
| inv_ends_malformed : forall args c e,
    args_get "count" args = Some c -> int_of_str c = inl e ->
    invalid (SetEnds args)
| inv_ends_below_one : forall args c n,
    args_get "count" args = Some c -> int_of_str c = inr n -> n < 1 ->
    invalid (SetEnds args).

(** A well-formed [set_total] request for the total [n]. *)
Inductive requests_total (args : request_args) (n : Z) : Prop :=
| rt_seconds : forall s f,
    args_get "seconds" args = Some s -> float_of_str s = inr f ->
    int_of_float f = inr n -> requests_total args n
| rt_time : forall t,
    args_get "seconds" args = None -> args_get "time" args = Some t ->
    parse_hms_to_seconds t = inr n -> requests_total args n.

End Handlers.

(** ** A sample of the builtins: plain decimal literals

    Used to run the handlers on concrete requests. *)

Definition digit_val (c : ascii) : option Z :=
  let n := nat_of_ascii c in
  if ((48 <=? n) && (n <=? 57))%nat then Some (Z.of_nat (n - 48)) else None.

Fixpoint digits_val (acc : Z) (s : string) : option Z :=
  match s with
  | EmptyString => Some acc
  | String c rest =>
      match digit_val c with
      | Some d => digits_val (acc * 10 + d) rest
      | None => None
      end
  end.

Definition dec_int (s : string) : exn + Z :=
  let bad := inl (ValueError "invalid literal for int() with base 10") in
  match strip s with
  | EmptyString => bad
  | String "-" EmptyString => bad
  | String "-" rest =>
      match digits_val 0 rest with Some n => inr (- n) | None => bad end
  | digits =>
      match digits_val 0 digits with Some n => inr n | None => bad end
  end.

Definition dec_float (s : string) : exn + pyfloat :=
  match dec_int s with
  | inr n => inr (Finite (inject_Z n))
  | inl _ => inl (ValueError "could not convert string to float")
  end.


(** ** Observations used in the statements *)

(** A computation returns [v] from [w]. *)
Definition returns {A : Type} (m : M A) (w : World) (v : A) : Prop :=
  exists w', m w = Ret v w'.

(** The reading of a well-formed state, as a function of the state. *)
Definition reading (w : World) : Q :=
  if _paused w
  then match _pause_epoch w with
       | Some p => py_max 0 ((p - _start_epoch w) + _manual_elapsed_offset w)%Q
       | None => 0%Q
       end
  else py_max 0 ((wall_clock w - _start_epoch w) + _manual_elapsed_offset w)%Q.

(** [m] started in a well-formed state ends in one, whether it returns or
    raises (a blocked thread ends nowhere). *)
Definition safe {A : Type} (m : M A) : Prop :=
  forall w, wf w ->
    match m w with
    | Ret _ w' | Raise _ w' => wf w'
    | Hang _ => True
    end.

(** ** Sample states and requests *)

(** Running since 100 with 30 s of offset, seen at 130. *)
Definition running_world : World :=
  mkWorld 130 false 7200 8 EmptyString EmptyString 100 30 false None.

(** Started at 0 and now at 7200: the default total is used up. *)
Definition overrun_world : World :=
  mkWorld 7200 false 7200 8 EmptyString EmptyString 0 0 false None.

Definition total_3600 : request_args := [("seconds", "3600")].
Definition four_part_time : request_args := [("time", "1:2:3:4")].

(** ** Clock text *)

(** [str(n)] for an int: decimal digits, most significant first. *)
Definition digit_char (d : Z) : ascii := ascii_of_nat (48 + Z.to_nat d).

Fixpoint digits_of (fuel : nat) (n : Z) (acc : string) : string :=
  match fuel with
  | O => acc
  | S fuel' =>
      let acc' := String (digit_char (n mod 10)) acc in
      if n <? 10 then acc' else digits_of fuel' (n / 10) acc'
  end.

Definition str_of_int (n : Z) : string :=
  if n <? 0
  then String "-" (digits_of (S (Z.to_nat (Z.log2 (- n)))) (- n) EmptyString)
  else digits_of (S (Z.to_nat (Z.log2 n))) n EmptyString.

(** [f"{n:02d}"]: zero padding to a width of two (a sign counts). *)
Definition format_02d (n : Z) : string :=
  let s := str_of_int n in
  if (String.length s <? 2)%nat then String "0" s else s.

Definition format_seconds_clock (seconds : Z) : string :=
  let seconds := if seconds <? 0 then 0 else seconds in
  let h := seconds / 3600 in
  let m := (seconds mod 3600) / 60 in
  let s := seconds mod 60 in
  if 0 <? h
  then str_of_int h ++ ":" ++ format_02d m ++ ":" ++ format_02d s
  else format_02d m ++ ":" ++ format_02d s.

(** What Python's [int(str)] does on a non-empty string of ASCII digits:
    it returns the decimal value, leading zeros allowed. *)
Definition reads_decimal (int_of_str : string -> exn + Z) : Prop :=
  forall (s : string) (n : Z),
    s <> EmptyString -> digits_val 0 s = Some n -> int_of_str s = inr n.

(** A string of digit characters: no blank, no colon. *)
Fixpoint plain (s : string) : Prop :=
  match s with
  | EmptyString => True
  | String c rest =>
      (is_space c = false /\ Ascii.eqb c ":"%char = false) /\ plain rest
  end.

(** No character that [strip] would remove. *)
Fixpoint no_space (s : string) : Prop :=
  match s with
  | EmptyString => True
  | String c rest => is_space c = false /\ no_space rest
  end.

(** ** One pass of the display loop *)

Section Loop.

Variables grid_width box_margin grid_h grid_top grid_bottom grid_left : Z.

(** [if len(box_rects) != num_ends(): box_rects = recompute_boxes(num_ends())] *)
Definition sync_boxes (box_rects : list Rect) : M (list Rect) :=
  n <- num_ends ;;
  if negb (Z.of_nat (List.length box_rects) =? n)
  then
    n' <- num_ends ;;
    ret (recompute_boxes grid_width box_margin grid_h grid_top grid_bottom
           grid_left n')
  else ret box_rects.

(** The timer pill: the reading [el] and the text drawn for it. *)
Definition timer_text : M (Q * string) :=
  el <- now_elapsed ;;
  let elapsed_int := Qtrunc el in
  tot <- total_seconds ;;
  let show_seconds := Z.min elapsed_int tot in
  let text := format_seconds_clock show_seconds in
  paused <- with_state_lock (gets _paused) ;;
  ret (el, if paused then text ++ "  (paused)" else text).

(** What one pass computes before drawing: the box list it goes on with,
    the timer text, and the numbers of the boxes row and pointer (key
    events, handled between the first two steps, are left out). *)
Definition loop_pass (box_rects : list Rect)
  : M (list Rect * string * Frame) :=
  box_rects <- sync_boxes box_rects ;;
  et <- timer_text ;;
  t <- total_seconds ;;
  f <- lift (boxes_row (fst et) t box_rects) ;;
  ret (box_rects, snd et, f).

End Loop.

(** ** Well-formed [set_remaining] requests; builtins with inf and nan *)

(** The request carries a remaining time that parses to the float [f]; a
    time string is converted with [float], so its int must be in range. *)
Inductive requests_remaining
  (float_of_str : string -> exn + pyfloat) (int_of_str : string -> exn + Z)
  (args : request_args) (f : pyfloat) : Prop :=
| rr_seconds : forall s,
    args_get "seconds" args = Some s -> float_of_str s = inr f ->
    requests_remaining float_of_str int_of_str args f
| rr_time : forall t n q,
    args_get "seconds" args = None -> args_get "time" args = Some t ->
    parse_hms_to_seconds int_of_str t = inr n -> float_of_int n = inr q ->
    f = Finite q ->
    requests_remaining float_of_str int_of_str args f.


(** In a state the program can be in, the pause instant is there exactly
    while paused and does not lie in the future. *)
Definition pause_ok (w : World) : Prop :=
  state_lock w = false /\
  match _pause_epoch w with
  | Some p => _paused w = true /\ (p <= wall_clock w)%Q
  | None => _paused w = false
  end.

(** [keeps P m]: [m] started in a state satisfying [P] ends in one. *)
Definition keeps {A : Type} (P : World -> Prop) (m : M A) : Prop :=
  forall w, P w ->
    match m w with
    | Ret _ w' | Raise _ w' => P w'
    | Hang _ => True
    end.

(** ** Wrapped text of the message panel *)

(** [text.split()]: the maximal runs of non-blank characters, in order. *)
Fixpoint split_ws (cur : string) (s : string) : list string :=
  match s with
  | EmptyString => match cur with EmptyString => [] | _ => [cur] end
  | String c rest =>
      if is_space c
      then match cur with
           | EmptyString => split_ws EmptyString rest
           | _ => cur :: split_ws EmptyString rest
           end
      else split_ws (cur ++ String c EmptyString) rest
  end.

Definition py_split (text : string) : list string :=
  split_ws EmptyString text.

Section WrappedText.

(** The font: [font.size(s)[0]] and [font.get_linesize()]. *)
Variable text_width : string -> Z.
Variable linesize : Z.

(** State of the [for w in words] loop; [blits] are the lines rendered so
    far with the position each was drawn at, first line first. *)
Record WrapState : Type := mkWrap {
  wrap_y : Z;
  wrap_line : string;
  wrap_used : Z;
  wrap_blits : list (string * (Z * Z))
}.

Fixpoint wrap_words (rect : Rect) (line_height : Q) (words : list string)
  (st : WrapState) : WrapState :=
  match words with
  | [] => st
  | w :: rest =>
      let trial := strip (wrap_line st ++ " " ++ w) in
      if text_width trial <=? rect_width rect
      then wrap_words rect line_height rest
             (mkWrap (wrap_y st) trial (wrap_used st) (wrap_blits st))
      else
        let blits :=
          (wrap_blits st
           ++ [(wrap_line st, (rect_left rect, wrap_y st))])%list in
        let y := wrap_y st + Qtrunc (inject_Z linesize * line_height) in
        let used := y - rect_top rect in
        wrap_words rect line_height rest (mkWrap y w used blits)
  end.

(** Returns the used height; the second component is what was drawn. *)
Definition draw_wrapped_text (text : string) (rect : Rect) (line_height : Q)
  : Z * list (string * (Z * Z)) :=
  let words := py_split text in
  let st := wrap_words rect line_height words
              (mkWrap (rect_top rect) EmptyString 0 []) in
  match wrap_line st with
  | EmptyString => (wrap_used st, wrap_blits st)
  | line =>
      (wrap_y st - rect_top rect + linesize,
       (wrap_blits st ++ [(line, (rect_left rect, wrap_y st))])%list)
  end.

End WrappedText.

(** ** Shrink-to-fit loop of the message panel *)

Section ShrinkToFit.

(** [pygame.font.SysFont(None, size)]: width of a text and line size of the
    font of each size. *)
Variable font_width : Z -> string -> Z.
Variable font_linesize : Z -> Z.

(** The rectangle the text is wrapped in: [inner] less 8 on every side. *)
Definition text_rect (inner : Rect) : Rect :=
  mkRect (rect_left inner + 8) (rect_top inner + 8)
         (rect_width inner - 16) (rect_height inner - 16).

(** [while trial_size >= 18: ...]: the passes made, each with the font size
    tried and the height its wrapped text used.  [fuel] bounds the number
    of passes (lemma [shrink_passes_fuel]: [shrink_to_fit] gives enough). *)
Fixpoint shrink_passes (fuel : nat) (text : string) (inner : Rect)
  (trial_size : Z) : list (Z * Z) :=
  match fuel with
  | O => []
  | S fuel' =>
      if 18 <=? trial_size
      then
        let used :=
          fst (draw_wrapped_text (font_width trial_size)
                 (font_linesize trial_size) text (text_rect inner)
                 (32 # 25)) in
        (trial_size, used)
        :: (if used <=? rect_height inner - 12
            then []
            else shrink_passes fuel' text inner (trial_size - 2))
      else []
  end.

Definition shrink_to_fit (text : string) (inner : Rect) (msg_font_sz : Z)
  : list (Z * Z) :=
  shrink_passes (Z.to_nat msg_font_sz) text inner msg_font_sz.

End ShrinkToFit.

(** A word as [split()] yields it: not empty, no blank in it. *)
Definition is_word (w : string) : Prop := w <> EmptyString /\ no_space w.

(** Not empty, first character not a blank. *)
Definition headed (s : string) : Prop :=
  match s with
  | String c _ => is_space c = false
  | EmptyString => False
  end.

(** First and last character are not blanks. *)
Definition tight (s : string) : Prop := headed s /\ headed (string_rev s).

(** ** More sample inputs *)

(** A font ten units wide per character. *)
Definition sample_width (s : string) : Z := 10 * Z.of_nat (String.length s).

Definition sample_rects : list Rect :=
  [mkRect 30 150 113 300; mkRect 153 150 113 300; mkRect 276 150 113 300].

Definition count_5 : request_args := [("count", "5")].

(** ** A total beyond the float range *)

(** The digit 1 followed by 400 zeros, which [int] reads as [10^400]. *)
Definition huge_time : string :=
  String "1" (string_of_list_ascii (repeat "0"%char 400)).

Definition huge_time_args : request_args := [("time", huge_time)].

(** Process start with the total [10^400] stored. *)
Definition huge_total_world : World :=
  mkWorld 0 false (10 ^ 400) 8 EmptyString EmptyString 0 0 false None.

(** * Properties *)

(** ** Comparisons and clamps *)

Lemma Qltb_true (a b : Q) : Qltb a b = true <-> (a < b)%Q.
Proof.
  unfold Qltb. rewrite negb_true_iff.
  split; intro H.
  - apply Qnot_le_lt. intro Hle. apply Qle_bool_iff in Hle. congruence.
  - destruct (Qle_bool b a) eqn:E; [|reflexivity].
    apply Qle_bool_iff in E. exfalso. apply (Qlt_not_le a b); assumption.
Qed.

Lemma Qltb_false (a b : Q) : Qltb a b = false <-> (b <= a)%Q.
Proof.
  unfold Qltb. rewrite negb_false_iff. apply Qle_bool_iff.
Qed.

Lemma py_max_cases (a b : Q) :
  ((b <= a)%Q /\ py_max a b = a) \/ ((a < b)%Q /\ py_max a b = b).
Proof.
  unfold py_max. destruct (Qltb a b) eqn:E.
  - right. split; [apply Qltb_true; assumption | reflexivity].
  - left. split; [apply Qltb_false; assumption | reflexivity].
Qed.

Lemma py_min_cases (a b : Q) :
  ((a <= b)%Q /\ py_min a b = a) \/ ((b < a)%Q /\ py_min a b = b).
Proof.
  unfold py_min. destruct (Qltb b a) eqn:E.
  - right. split; [apply Qltb_true; assumption | reflexivity].
  - left. split; [apply Qltb_false; assumption | reflexivity].
Qed.

Ltac clamp_cases :=
  repeat match goal with
         | |- context [py_max ?a ?b] =>
             let H := fresh "Hmax" in
             let E := fresh "Emax" in
             destruct (py_max_cases a b) as [[H E] | [H E]];
             rewrite E in *; clear E
         | |- context [py_min ?a ?b] =>
             let H := fresh "Hmin" in
             let E := fresh "Emin" in
             destruct (py_min_cases a b) as [[H E] | [H E]];
             rewrite E in *; clear E
         end.

Lemma py_max_nonneg (x : Q) : (0 <= py_max 0 x)%Q.
Proof. clamp_cases; lra. Qed.

Lemma py_max_compat (a x y : Q) : (x == y)%Q -> (py_max a x == py_max a y)%Q.
Proof. intro H. clamp_cases; lra. Qed.

Lemma py_max_mono (a x y : Q) : (x <= y)%Q -> (py_max a x <= py_max a y)%Q.
Proof. intro H. clamp_cases; lra. Qed.

(** ** Clock core *)

Ltac unfold_clock :=
  unfold now_elapsed, set_elapsed, reset_timer, pause_timer, resume_timer,
    total_seconds, num_ends, key_space, elapse, time_time,
    with_state_lock, try_except, bind, ret, raise, lift, gets, modify in *.

Lemma now_elapsed_reading (w : World) :
  wf w -> now_elapsed w = Ret (reading w) w.
Proof.
  intros [Hl Hp]. destruct w as [t l tot ne lg msg st off pa pe].
  simpl in *. subst l. unfold reading. unfold_clock. simpl.
  destruct pa; [|reflexivity].
  destruct (Hp eq_refl) as [p ->]. reflexivity.
Qed.

Lemma now_elapsed_held (w : World) :
  state_lock w = true -> now_elapsed w = Hang w.
Proof. intro H. unfold_clock. rewrite H. reflexivity. Qed.

Lemma now_elapsed_ret_free (w w' : World) (v : Q) :
  now_elapsed w = Ret v w' -> state_lock w = false /\ w' = w.
Proof.
  destruct w as [t l tot ne lg msg st off pa pe].
  unfold_clock. simpl. destruct l; [discriminate|].
  destruct pa; [destruct pe|]; simpl; intro H; inversion H; auto.
Qed.

Lemma pause_timer_returns (w : World) :
  wf w -> exists w', pause_timer w = Ret tt w' /\ _paused w' = true.
Proof.
  destruct w as [t l tot ne lg msg st off pa pe].
  intros [Hl _]. simpl in *. subst l. unfold_clock; simpl.
  destruct pa; simpl; eexists; split; reflexivity.
Qed.

Lemma resume_timer_returns (w : World) :
  wf w -> exists w', resume_timer w = Ret tt w' /\ _paused w' = false.
Proof.
  destruct w as [t l tot ne lg msg st off pa pe].
  intros [Hl Hp]. simpl in *. subst l. unfold_clock; simpl.
  destruct pa; simpl.
  - destruct (Hp eq_refl) as [p ->]. simpl. eexists; split; reflexivity.
  - eexists; split; reflexivity.
Qed.

(** C8. [pause_timer] and [resume_timer] are idempotent: from every state,
    two calls in a row, at once or any time [d] apart, leave the outcome
    and state that one call leaves; after a call that completed, the
    second call returns normally and changes nothing. *)
Theorem pause_resume_idempotent : forall (w : World) (d : Q),
  (pause_timer ;; pause_timer) w = pause_timer w /\
  (resume_timer ;; resume_timer) w = resume_timer w /\
  (pause_timer ;; elapse d ;; pause_timer) w = (pause_timer ;; elapse d) w /\
  (resume_timer ;; elapse d ;; resume_timer) w = (resume_timer ;; elapse d) w /\
  match pause_timer w with
  | Ret _ w1 => pause_timer w1 = Ret tt w1
  | _ => True
  end /\
  match resume_timer w with
  | Ret _ w1 => resume_timer w1 = Ret tt w1
  | _ => True
  end.
Proof.
  intros [t l tot ne lg msg st off pa pe] d.
  unfold_clock; simpl.
  destruct l, pa, pe; simpl;
    (split; [|split; [|split; [|split; [|split]]]]);
    solve [reflexivity | exact I].
Qed.

(** C3. Continuity across pause and resume: from a well-formed state the
    reading taken just before [pause_timer] is the reading at any later
    time [d] while paused, and the reading right after a [resume_timer]
    issued at that later time. *)
Theorem pause_resume_continuity : forall (w : World) (d : Q),
  wf w -> (0 <= d)%Q ->
  exists e0 e1 e2 : Q,
    returns now_elapsed w e0 /\
    returns (pause_timer ;; elapse d ;; now_elapsed) w e1 /\
    returns (pause_timer ;; elapse d ;; resume_timer ;; now_elapsed) w e2 /\
    (e1 == e0)%Q /\ (e2 == e0)%Q.
Proof.
  intros [t l tot ne lg msg st off pa pe] d [Hl Hp] Hd.
  simpl in *. subst l. unfold returns.
  destruct pa.
  - destruct (Hp eq_refl) as [p ->].
    do 3 eexists. unfold_clock; simpl.
    split; [eexists; reflexivity|].
    split; [eexists; reflexivity|].
    split; [eexists; reflexivity|].
    split; [reflexivity|]. apply py_max_compat. ring.
  - do 3 eexists. unfold_clock; simpl.
    split; [eexists; reflexivity|].
    split; [eexists; reflexivity|].
    split; [eexists; reflexivity|].
    split; [reflexivity|]. apply py_max_compat. ring.
Qed.

(** [set_elapsed] on a running clock reads back as the value set, plus the
    time [d] that passed before the query. *)
Lemma set_elapsed_running_roundtrip (w : World) (x d : Q) :
  wf w -> _paused w = false -> (0 <= x)%Q -> (0 <= d)%Q ->
  exists v, returns (set_elapsed x ;; elapse d ;; now_elapsed) w v /\
            (v == x + d)%Q.
Proof.
  destruct w as [t l tot ne lg msg st off pa pe].
  intros [Hl _] Hpa Hx Hd. simpl in *. subst l pa.
  eexists. split.
  - eexists. unfold_clock; simpl. reflexivity.
  - clamp_cases; lra.
Qed.

Lemma set_elapsed_keeps_paused (w w' : World) (x : Q) :
  set_elapsed x w = Ret tt w' ->
  _paused w' = _paused w /\ _pause_epoch w' = _pause_epoch w.
Proof.
  destruct w as [t l tot ne lg msg st off pa pe].
  unfold_clock; simpl. destruct l; [discriminate|].
  intro H. inversion H. simpl. auto.
Qed.

(** [set_elapsed] on a paused clock: the reading is short of the value set
    by the time spent paused so far. *)
Lemma set_elapsed_paused_reading (w : World) (x d p : Q) :
  wf w -> _paused w = true -> _pause_epoch w = Some p ->
  returns (set_elapsed x ;; elapse d ;; now_elapsed) w
          (py_max 0 ((p - wall_clock w) + x))%Q.
Proof.
  destruct w as [t l tot ne lg msg st off pa pe].
  intros [Hl _] Hpa Hpe. simpl in *. subst l pa pe.
  eexists. unfold_clock; simpl. reflexivity.
Qed.

(** C1 (fails on a paused clock).  Start at time 0, pause at 100, and 10
    seconds into the pause call [set_elapsed 50]: the reading right after
    is 40, not 50, and the clock is still paused. *)
Theorem set_elapsed_while_paused_reads_short :
  exists w',
    (elapse 100 ;; pause_timer ;; elapse 10 ;; set_elapsed 50 ;; now_elapsed)
      (initial 0 7200 8 EmptyString EmptyString) = Ret 40%Q w' /\
    _paused w' = true /\ ~ (40 == 50)%Q.
Proof.
  eexists. split; [vm_compute; reflexivity|].
  split; [reflexivity|]. intro H. discriminate H.
Qed.

(** ** Quick adjust and set-remaining *)

(** [add_time] on a running clock: the reading goes up by 60, with no cap
    at the total. *)
Lemma add_time_running (w : World) :
  wf w -> _paused w = false ->
  exists resp w', add_time w = Ret resp w' /\ wf w' /\
                  (reading w' == reading w + 60)%Q.
Proof.
  destruct w as [t l tot ne lg msg st off pa pe].
  intros [Hl _] Hpa. simpl in *. subst l pa.
  do 2 eexists. unfold add_time. unfold_clock; simpl.
  split; [reflexivity|]. split.
  - split; simpl; [reflexivity | discriminate].
  - unfold reading; simpl. clamp_cases; lra.
Qed.

(** [subtract_time] on a running clock: the reading goes down by 60, but
    not below 0. *)
Lemma subtract_time_running (w : World) :
  wf w -> _paused w = false ->
  exists resp w', subtract_time w = Ret resp w' /\ wf w' /\
                  (reading w' == py_max 0 (reading w - 60))%Q.
Proof.
  destruct w as [t l tot ne lg msg st off pa pe].
  intros [Hl _] Hpa. simpl in *. subst l pa.
  do 2 eexists. unfold subtract_time. unfold_clock; simpl.
  split; [reflexivity|]. split.
  - split; simpl; [reflexivity | discriminate].
  - unfold reading; simpl. clamp_cases; lra.
Qed.

(** [max(0.0, min(rem, float(tot)))] is a finite float, whatever [rem]. *)
Lemma clamp_remaining_eq (rem : pyfloat) (ftot : Q) :
  clamp_remaining_flt rem ftot = Finite (clamp_remaining rem ftot).
Proof.
  unfold clamp_remaining, clamp_remaining_flt, flt_max, flt_min.
  destruct rem; simpl.
  - destruct (Qltb ftot q); simpl;
      match goal with |- context [Qltb ?a ?b] => destruct (Qltb a b) end;
      reflexivity.
  - destruct (Qltb 0 ftot); reflexivity.
  - reflexivity.
  - reflexivity.
Qed.


(** [float(n)] succeeds exactly on the ints within the float range. *)
Lemma float_of_int_in_range (n : Z) :
  Z.abs n < float_int_limit -> float_of_int n = inr (inject_Z n).
Proof.
  intro H. unfold float_of_int.
  destruct (Z.abs n <? float_int_limit) eqn:E; [reflexivity|].
  apply Z.ltb_ge in E. lia.
Qed.

Lemma float_of_int_overflow (n : Z) :
  float_int_limit <= Z.abs n ->
  float_of_int n = inl (OverflowError "int too large to convert to float").
Proof.
  intro H. unfold float_of_int.
  destruct (Z.abs n <? float_int_limit) eqn:E; [|reflexivity].
  apply Z.ltb_lt in E. lia.
Qed.

(** C6 (fails on a paused clock).  Start at time 0, pause at 100 (reading
    100) and call [add_time] 90 seconds into the pause: the handler reports
    160 elapsed seconds, and the reading right after is 70. *)
Theorem add_time_while_paused_reads_short :
  exists w1 w2,
    (elapse 100 ;; pause_timer ;; elapse 90 ;; add_time)
      (initial 0 7200 8 EmptyString EmptyString)
    = Ret ([("ok", JBool true); ("message", JStr "Added 1 minute");
            ("elapsed_seconds", JInt 160)], 200) w1 /\
    now_elapsed w1 = Ret 70%Q w2 /\
    ~ (70 == 100 + 60)%Q.
Proof.
  do 2 eexists. split; [vm_compute; reflexivity|].
  split; [vm_compute; reflexivity|]. intro H. discriminate H.
Qed.

(** ** Well-formedness is kept by everything that completes *)

Lemma safe_ret {A : Type} (a : A) : safe (ret a).
Proof. intros w H. exact H. Qed.

Lemma safe_raise {A : Type} (e : exn) : safe (@raise A e).
Proof. intros w H. exact H. Qed.

Lemma safe_lift {A : Type} (r : exn + A) : safe (lift r).
Proof. destruct r; [apply safe_raise | apply safe_ret]. Qed.

Lemma safe_bind {A B : Type} (m : M A) (k : A -> M B) :
  safe m -> (forall a, safe (k a)) -> safe (bind m k).
Proof.
  intros Hm Hk w Hw. unfold bind. specialize (Hm w Hw).
  destruct (m w) as [a w' | e w' | w']; auto.
  apply Hk. exact Hm.
Qed.

Lemma safe_try_except {A : Type} (m : M A) (h : exn -> M A) :
  safe m -> (forall e, safe (h e)) -> safe (try_except m h).
Proof.
  intros Hm Hh w Hw. unfold try_except. specialize (Hm w Hw).
  destruct (m w) as [a w' | e w' | w']; auto.
  apply Hh. exact Hm.
Qed.

Lemma safe_gets {A : Type} (f : World -> A) : safe (gets f).
Proof. intros w H. exact H. Qed.

Ltac safe_clock :=
  intros [t l tot ne lg msg st off pa pe] [Hl Hp]; simpl in *; subst l;
  unfold_clock; simpl.

Lemma safe_total_seconds : safe total_seconds.
Proof. safe_clock. split; auto. Qed.

Lemma safe_num_ends : safe num_ends.
Proof. safe_clock. split; auto. Qed.

Lemma safe_now_elapsed : safe now_elapsed.
Proof.
  safe_clock. destruct pa; [destruct pe|]; simpl; split; auto.
Qed.

Lemma safe_set_elapsed (x : Q) : safe (set_elapsed x).
Proof. safe_clock. split; auto. Qed.

Lemma safe_reset_timer : safe reset_timer.
Proof. safe_clock. split; auto. Qed.

Lemma safe_pause_timer : safe pause_timer.
Proof.
  safe_clock. destruct pa; simpl; split; simpl; eauto.
Qed.

Lemma safe_resume_timer : safe resume_timer.
Proof.
  safe_clock. destruct pa; [destruct pe|]; simpl; split; simpl; auto;
    discriminate.
Qed.

Lemma safe_elapse (d : Q) : safe (elapse d).
Proof. safe_clock. split; auto. Qed.

(** The locked block of [set_total]: it either blocks in the nested
    [set_elapsed] or stores the total and releases the lock. *)
Lemma safe_set_total_block (new_total : Z) (el : Q) :
  safe (with_state_lock
          (modify (set_TOTAL_SECONDS new_total) ;;
           total <- gets TOTAL_SECONDS ;;
           if Qltb (inject_Z total) el
           then set_elapsed (inject_Z total)
           else ret tt)).
Proof.
  safe_clock. destruct (Qltb (inject_Z new_total) el); simpl; [exact I|].
  split; auto.
Qed.

Lemma safe_set_ends_block (n : Z) :
  safe (with_state_lock (modify (set_NUM_ENDS n))).
Proof. safe_clock. split; auto. Qed.

Lemma safe_status_block :
  safe (with_state_lock (paused <- gets _paused ;;
                         logo <- gets LOGO_URL ;;
                         ret (paused, logo))).
Proof. safe_clock. split; auto. Qed.

Create HintDb safe_db.
#[local] Hint Resolve safe_ret safe_raise safe_lift safe_gets
  safe_total_seconds safe_num_ends safe_now_elapsed safe_set_elapsed
  safe_reset_timer safe_pause_timer safe_resume_timer safe_elapse
  safe_set_total_block safe_set_ends_block safe_status_block : safe_db.

Ltac safe_steps :=
  repeat first
    [ progress auto with safe_db
    | apply safe_bind; [| intro]
    | apply safe_try_except; [| intro]
    | match goal with
      | |- safe (if ?b then _ else _) => destruct b
      | |- safe (match ?x with _ => _ end) => destruct x
      end ].

Section HandlerFacts.

Variable float_of_str : string -> exn + pyfloat.
Variable int_of_str : string -> exn + Z.

Lemma safe_run_op (o : op) : safe (run_op float_of_str int_of_str o).
Proof.
  destruct o; unfold run_op, reset, pause, resume, status, set_remaining,
    set_remaining_try, set_total, set_total_try, set_ends, add_time,
    subtract_time; safe_steps.
Qed.

Lemma reachable_wf (w : World) :
  reachable float_of_str int_of_str w -> wf w.
Proof.
  induction 1 as [t0 total ends logo msg | w o w' _ IH Hrun
                 | w d w' _ IH _ Hrun].
  - split; simpl; [reflexivity | discriminate].
  - pose proof (safe_run_op o w IH) as Hs. rewrite Hrun in Hs. exact Hs.
  - pose proof (safe_elapse d w IH) as Hs. rewrite Hrun in Hs. exact Hs.
Qed.


(** C9. In every state reached from process start by completed operations
    and passing time, [now_elapsed] returns a value [>= 0]; with no further
    operation, a later query returns at least as much while the clock runs
    and the same value while it is paused. *)
Theorem elapsed_invariant : forall w : World,
  reachable float_of_str int_of_str w ->
  exists v : Q,
    now_elapsed w = Ret v w /\ (0 <= v)%Q /\
    forall d : Q, (0 <= d)%Q ->
      exists v' : Q,
        returns (elapse d ;; now_elapsed) w v' /\ (0 <= v')%Q /\
        (_paused w = false -> (v <= v')%Q) /\
        (_paused w = true -> (v' == v)%Q).
Proof.
  intros w Hr. apply reachable_wf in Hr.
  exists (reading w). split; [apply now_elapsed_reading; exact Hr|].
  destruct w as [t l tot ne lg msg st off pa pe].
  destruct Hr as [Hl Hp]. simpl in *. subst l.
  unfold reading, returns; simpl.
  destruct pa.
  - destruct (Hp eq_refl) as [p ->].
    split; [apply py_max_nonneg|]. intros d Hd.
    eexists. split; [eexists; unfold_clock; simpl; reflexivity|].
    split; [apply py_max_nonneg|].
    split; [discriminate | reflexivity].
  - split; [apply py_max_nonneg|]. intros d Hd.
    eexists. split; [eexists; unfold_clock; simpl; reflexivity|].
    split; [apply py_max_nonneg|].
    split; [|discriminate].
    intros _. apply py_max_mono. lra.
Qed.

(** *** [set_total] *)

Lemma requests_total_shape (args : request_args) (n : Z) :
  requests_total float_of_str int_of_str args n ->
  exists parsed : M Z,
    set_total float_of_str int_of_str args = set_total_try parsed /\
    forall w, parsed w = Ret n w.
Proof.
  intros [s f Hs Hf Hi | t Hs Ht Hp]; unfold set_total; rewrite Hs.
  - eexists. split; [reflexivity|]. intro w.
    unfold bind, lift. rewrite Hf. simpl. rewrite Hi. reflexivity.
  - rewrite Ht. eexists. split; [reflexivity|]. intro w.
    unfold lift. rewrite Hp. reflexivity.
Qed.

(** The clamping branch: the handler still holds [state_lock] when it
    calls [set_elapsed], which acquires the same lock. *)
Lemma set_total_try_blocks (parsed : M Z) (w : World) (n : Z) (el : Q) :
  parsed w = Ret n w -> 0 < n ->
  now_elapsed w = Ret el w -> (inject_Z n < el)%Q ->
  set_total_try parsed w = Hang (set_state_lock true (set_TOTAL_SECONDS n w)).
Proof.
  intros Hp Hn Hel Hlt.
  destruct (now_elapsed_ret_free _ _ _ Hel) as [Hl _].
  unfold set_total_try, try_except, bind at 1. rewrite Hp.
  destruct (n <=? 0) eqn:E; [apply Z.leb_le in E; lia|].
  unfold bind at 1. rewrite Hel.
  apply Qltb_true in Hlt.
  destruct w as [t l tot ne lg msg st off pa pe]. simpl in *. subst l.
  unfold_clock; simpl. rewrite Hlt. simpl. reflexivity.
Qed.


(** C2 (the clamping case never finishes).  A well-formed request for a
    total [n > 0] below the current reading stores [n] and then blocks for
    good with the lock held, so no reading follows: [now_elapsed] blocks
    too. *)
Theorem set_total_clamp_blocks :
  forall (args : request_args) (n : Z) (w : World) (el : Q),
    requests_total float_of_str int_of_str args n -> 0 < n ->
    now_elapsed w = Ret el w -> (inject_Z n < el)%Q ->
    exists w' : World,
      set_total float_of_str int_of_str args w = Hang w' /\
      TOTAL_SECONDS w' = n /\ state_lock w' = true /\
      now_elapsed w' = Hang w'.
Proof.
  intros args n w el Hreq Hn Hel Hlt.
  destruct (requests_total_shape args n Hreq) as [parsed [-> Hp]].
  eexists. split; [apply (set_total_try_blocks parsed w n el); auto|].
  split; [reflexivity|]. split; [reflexivity|].
  apply now_elapsed_held. reflexivity.
Qed.


(** C10 (not every operation completes).  For any well-formed request for
    a total [n > 0] there is a reachable state in which [set_total] blocks
    forever and keeps the lock, after which the readers and mutators of
    the clock block as well. *)
Theorem set_total_can_block_forever :
  forall (args : request_args) (n : Z),
    requests_total float_of_str int_of_str args n -> 0 < n ->
    exists w w' : World,
      reachable float_of_str int_of_str w /\
      set_total float_of_str int_of_str args w = Hang w' /\
      state_lock w' = true /\
      now_elapsed w' = Hang w' /\
      pause_timer w' = Hang w' /\
      reset_timer w' = Hang w'.
Proof.
  intros args n Hreq Hn.
  destruct (requests_total_shape args n Hreq) as [parsed [-> Hp]].
  set (w0 := initial 0 7200 8 EmptyString EmptyString).
  set (w := set_wall_clock (wall_clock w0 + (inject_Z n + 1))%Q w0).
  assert (Hn0 : (0 < inject_Z n)%Q) by (unfold Qlt; simpl; lia).
  exists w. eexists. split.
  - apply (reach_elapse _ _ w0 (inject_Z n + 1)%Q w).
    + apply reach_initial.
    + lra.
    + reflexivity.
  - split.
    + apply (set_total_try_blocks parsed w n (reading w) (Hp w) Hn).
      * apply now_elapsed_reading. split; simpl; [reflexivity|discriminate].
      * unfold reading, w, w0; simpl. clamp_cases; lra.
    + repeat split.
Qed.

Lemma key_space_blocks (w : World) : exists w', key_space w = Hang w'.
Proof.
  destruct w as [t l tot ne lg msg st off pa pe].
  unfold_clock; simpl. destruct l; simpl; [eexists; reflexivity|].
  destruct pa; simpl; eexists; reflexivity.
Qed.


(** *** Rejected requests *)

(** A part count other than 1, 2 or 3 is a [ValueError], whatever the
    parts are. *)
Lemma parse_hms_part_count (t : string) :
  ~ (1 <= List.length (split_colon (strip t)) <= 3)%nat ->
  parse_hms_to_seconds int_of_str t = inl (ValueError "Invalid time format").
Proof.
  unfold parse_hms_to_seconds. intro H.
  destruct (split_colon (strip t)) as [|a [|b [|c [|d l]]]];
    simpl in H; try reflexivity; exfalso; apply H; lia.
Qed.

Lemma malformed_time_raises (t : string) :
  malformed_time int_of_str t ->
  exists e, parse_hms_to_seconds int_of_str t = inl e.
Proof.
  intros [H | e H]; eexists; [apply parse_hms_part_count|]; eassumption.
Qed.

Lemma total_seconds_free (w : World) :
  state_lock w = false -> total_seconds w = Ret (TOTAL_SECONDS w) w.
Proof.
  destruct w as [t l tot ne lg msg st off pa pe]. simpl. intros ->.
  reflexivity.
Qed.

(** C7. A request to [set_remaining], [set_total] or [set_ends] with
    invalid input (required parameter missing, number or time string that
    does not parse, time string with a part count other than 1 to 3, total
    [<= 0], count [< 1]) is answered with a 400 rejection and the whole
    state is left as it was. *)
Theorem invalid_request_rejected : forall (r : request) (w : World),
  state_lock w = false ->
  invalid float_of_str int_of_str r ->
  exists msg : string,
    handle float_of_str int_of_str r w = Ret (rejection msg) w.
Proof.
  intros r w Hl Hinv.
  destruct Hinv as
    [ args Hs Ht | args s e Hs Hf | args t Hs Ht Hm
    | args Hs Ht | args s e Hs Hf | args s f e Hs Hf Hi
    | args s f n Hs Hf Hi Hn | args t Hs Ht Hm | args t n Hs Ht Hp Hn
    | args Hc | args Hc | args c e Hc Hi | args c n Hc Hi Hn ];
    unfold handle.
  - unfold set_remaining, bind. rewrite (total_seconds_free w Hl), Hs, Ht.
    eexists; reflexivity.
  - unfold set_remaining, bind. rewrite (total_seconds_free w Hl), Hs.
    unfold set_remaining_try, try_except, bind, lift. rewrite Hf.
    eexists; reflexivity.
  - destruct (malformed_time_raises t Hm) as [e He].
    unfold set_remaining, bind. rewrite (total_seconds_free w Hl), Hs, Ht.
    unfold set_remaining_try, try_except, bind, lift. rewrite He.
    eexists; reflexivity.
  - unfold set_total. rewrite Hs, Ht. eexists; reflexivity.
  - unfold set_total. rewrite Hs.
    unfold set_total_try, try_except, bind, lift. rewrite Hf.
    eexists; reflexivity.
  - unfold set_total. rewrite Hs.
    unfold set_total_try, try_except, bind, lift. rewrite Hf. simpl.
    rewrite Hi. eexists; reflexivity.
  - unfold set_total. rewrite Hs.
    unfold set_total_try, try_except, bind, lift. rewrite Hf. simpl.
    rewrite Hi. simpl.
    destruct (n <=? 0) eqn:E; [|apply Z.leb_gt in E; lia].
    eexists; reflexivity.
  - destruct (malformed_time_raises t Hm) as [e He].
    unfold set_total. rewrite Hs, Ht.
    unfold set_total_try, try_except, bind, lift. rewrite He.
    eexists; reflexivity.
  - unfold set_total. rewrite Hs, Ht.
    unfold set_total_try, try_except, bind, lift. rewrite Hp. simpl.
    destruct (n <=? 0) eqn:E; [|apply Z.leb_gt in E; lia].
    eexists; reflexivity.
  - unfold set_ends. rewrite Hc. eexists; reflexivity.
  - unfold set_ends. rewrite Hc. eexists; reflexivity.
  - unfold set_ends. rewrite Hc.
    destruct c as [|a c']; [eexists; reflexivity|].
    unfold try_except, bind, lift. rewrite Hi. eexists; reflexivity.
  - unfold set_ends. rewrite Hc.
    destruct c as [|a c']; [eexists; reflexivity|].
    unfold try_except, bind, lift. rewrite Hi. simpl.
    destruct (n <? 1) eqn:E; [|apply Z.ltb_ge in E; lia].
    eexists; reflexivity.
Qed.

End HandlerFacts.

(** ** Display loop *)

Lemma range_length (n : Z) : List.length (range n) = Z.to_nat n.
Proof. unfold range. rewrite length_map, length_seq. reflexivity. Qed.

Lemma list_index_in_range {A : Type} (l : list A) (i : Z) :
  0 <= i < Z.of_nat (List.length l) -> exists a, list_index l i = inr a.
Proof.
  intros [H0 H1]. unfold list_index.
  destruct (i <? 0) eqn:E0; [apply Z.ltb_lt in E0; lia|]. rewrite E0.
  destruct (Z.of_nat (List.length l) <=? i) eqn:E1;
    [apply Z.leb_le in E1; lia|]. simpl.
  destruct (nth_error l (Z.to_nat i)) as [a|] eqn:E2; [eexists; reflexivity|].
  apply nth_error_None in E2. lia.
Qed.

Lemma Qtrunc_nonneg (q : Q) : (0 <= q)%Q -> 0 <= Qtrunc q.
Proof.
  destruct q as [n d]. unfold Qle, Qtrunc. simpl. intro H.
  apply Z.quot_pos; lia.
Qed.

Lemma Qtrunc_le_int (q : Q) (n : Z) :
  (0 <= q)%Q -> (q <= inject_Z n)%Q -> Qtrunc q <= n.
Proof.
  destruct q as [a d]. unfold Qle, Qtrunc. simpl. intros H0 H1.
  rewrite Z.quot_div_nonneg by lia.
  apply Z.div_le_upper_bound; lia.
Qed.

Section DisplayFacts.

Variables grid_width box_margin grid_h grid_top grid_bottom grid_left : Z.

Local Abbreviation boxes N :=
  (recompute_boxes grid_width box_margin grid_h grid_top grid_bottom
     grid_left N).

Lemma recompute_boxes_length (N : Z) :
  Z.of_nat (List.length (boxes N)) = Z.max 1 N.
Proof.
  unfold recompute_boxes. rewrite length_map, range_length. lia.
Qed.

(** The clamped fraction lies in [0, 1] and the number of full boxes in
    [0, N], for any reading and any total. *)
Lemma frame_fraction_bounds (el : Q) (total : Z) (rects : list Rect) :
  let f := draw_boxes el total rects in
  (0 <= frac f <= 1)%Q /\
  0 <= full_boxes f <= Z.of_nat (List.length rects).
Proof.
  simpl.
  set (tot := if total =? 0 then 1%Q else inject_Z total).
  set (N := Z.of_nat (List.length rects)).
  assert (HN : (0 <= inject_Z N)%Q) by (unfold Qle; simpl; lia).
  assert (Hf : (0 <= py_max 0 (py_min 1 (el / tot)) <= 1)%Q)
    by (clamp_cases; lra).
  split; [exact Hf|]. split.
  - apply Qtrunc_nonneg. apply Qmult_le_0_compat; lra.
  - apply Qtrunc_le_int.
    + apply Qmult_le_0_compat; lra.
    + rewrite <- (Qmult_1_l (inject_Z N)) at 2.
      apply Qmult_le_compat_r; lra.
Qed.

(** Bounds of the frame numbers once the total has been converted. *)
Lemma draw_boxes_pointer_bounds : forall (el : Q) (total numEnds : Z),
  1 <= numEnds ->
  let f := draw_boxes el total (boxes numEnds) in
  Z.of_nat (List.length (boxes numEnds)) = numEnds /\
  (0 <= frac f <= 1)%Q /\
  0 <= current_idx f <= numEnds - 1 /\
  exists r : Rect, current_rect f = inr r.
Proof.
  intros el total numEnds HN f.
  assert (Hlen : Z.of_nat (List.length (boxes numEnds)) = numEnds)
    by (rewrite recompute_boxes_length; lia).
  split; [exact Hlen|].
  split; [apply (frame_fraction_bounds el total (boxes numEnds))|].
  assert (Hidx : 0 <= current_idx f <= numEnds - 1).
  { unfold f, draw_boxes; simpl. rewrite Hlen. lia. }
  split; [exact Hidx|].
  unfold f, draw_boxes; simpl. apply list_index_in_range.
  unfold f, draw_boxes in Hidx; simpl in Hidx. rewrite Hlen in *. lia.
Qed.

(** C4, for a total that [float] can convert.  For any reading, any total
    of absolute value below [2^1024 - 2^970] and [numEnds >= 1], the boxes
    row is computed without error, the boxes list has [numEnds] entries,
    the fraction lies in [0, 1], the pointer index lies in
    [0, numEnds - 1], and [box_rects[current_idx]] is a box (no
    [IndexError]), also when the reading exceeds the total. *)
Theorem pointer_in_bounds : forall (el : Q) (total numEnds : Z),
  (0 <= el)%Q -> 1 <= numEnds -> Z.abs total < float_int_limit ->
  exists f : Frame,
    boxes_row el total (boxes numEnds) = inr f /\
    Z.of_nat (List.length (boxes numEnds)) = numEnds /\
    (0 <= frac f <= 1)%Q /\
    0 <= current_idx f <= numEnds - 1 /\
    exists r : Rect, current_rect f = inr r.
Proof.
  intros el total numEnds Hel HN Htot.
  exists (draw_boxes el total (boxes numEnds)). split.
  - unfold boxes_row. rewrite (float_of_int_in_range total Htot).
    reflexivity.
  - apply (draw_boxes_pointer_bounds el total numEnds HN).
Qed.

Lemma enumerate_index_bound {A : Type} (l : list A) (idx : Z) (a : A) :
  In (idx, a) (enumerate l) -> 0 <= idx < Z.of_nat (List.length l).
Proof.
  unfold enumerate, range. intro H. apply in_combine_l in H.
  apply in_map_iff in H. destruct H as [k [<- Hk]].
  apply in_seq in Hk. lia.
Qed.

(** C5. Total 7200, 8 ends, reading 7200: the fraction is 1, there are 8
    full boxes and no partial remainder, the pointer is on index 7 (the
    last box), each of the 8 boxes gets the full fill width, and no box
    has the index [full_boxes] on which a partial fill would be drawn. *)
Theorem full_time_fills_every_box :
  let box_rects := boxes 8 in
  let f := draw_boxes 7200 7200 box_rects in
  List.length box_rects = 8%nat /\
  frac f = 1%Q /\
  full_boxes f = 8 /\
  partial f = 0%Q /\
  current_idx f = 7 /\
  current_rect f = inr (nth 7 box_rects (mkRect 0 0 0 0)) /\
  fill_ws f = map (fun r => rect_width r - 6) box_rects /\
  (forall idx r, In (idx, r) (enumerate box_rects) -> idx < full_boxes f).
Proof.
  intros box_rects f.
  assert (Hlen : List.length box_rects = 8%nat) by reflexivity.
  assert (Hfrac : frac f = 1%Q) by reflexivity.
  assert (Hfull : full_boxes f = 8) by reflexivity.
  split; [exact Hlen|]. split; [exact Hfrac|]. split; [exact Hfull|].
  split; [reflexivity|]. split; [reflexivity|]. split; [reflexivity|].
  split; [reflexivity|].
  intros idx r Hin. apply enumerate_index_bound in Hin.
  rewrite Hfull, Hlen in *. simpl in Hin. lia.
Qed.

End DisplayFacts.

(** ** The theorems on concrete inputs *)

Lemma pause_resume_continuity_witness :
  wf running_world /\ (0 <= 5)%Q /\
  exists e0 e1 e2 : Q,
    returns now_elapsed running_world e0 /\
    returns (pause_timer ;; elapse 5 ;; now_elapsed) running_world e1 /\
    returns (pause_timer ;; elapse 5 ;; resume_timer ;; now_elapsed)
            running_world e2 /\
    (e1 == e0)%Q /\ (e2 == e0)%Q.
Proof.
  assert (Hwf : wf running_world).
  { split; simpl; [reflexivity | discriminate]. }
  assert (Hd : (0 <= 5)%Q) by (unfold Qle; simpl; lia).
  split; [exact Hwf|]. split; [exact Hd|].
  exact (pause_resume_continuity running_world 5 Hwf Hd).
Defined.

Lemma pointer_in_bounds_witness :
  (0 <= 9000)%Q /\ 1 <= 8 /\ Z.abs 7200 < float_int_limit /\
  exists f : Frame,
    boxes_row 9000 7200 (recompute_boxes 1000 10 300 100 500 20 8) = inr f /\
    Z.of_nat (List.length (recompute_boxes 1000 10 300 100 500 20 8)) = 8 /\
    (0 <= frac f <= 1)%Q /\
    0 <= current_idx f <= 8 - 1 /\
    exists r : Rect, current_rect f = inr r.
Proof.
  assert (Hel : (0 <= 9000)%Q) by (unfold Qle; simpl; lia).
  assert (HN : 1 <= 8) by lia.
  assert (Htot : Z.abs 7200 < float_int_limit) by (vm_compute; reflexivity).
  split; [exact Hel|]. split; [exact HN|]. split; [exact Htot|].
  exact (pointer_in_bounds 1000 10 300 100 500 20 9000 7200 8 Hel HN Htot).
Defined.

Lemma invalid_request_rejected_witness :
  state_lock overrun_world = false /\
  invalid dec_float dec_int (SetTotal four_part_time) /\
  exists msg : string,
    handle dec_float dec_int (SetTotal four_part_time) overrun_world
    = Ret (rejection msg) overrun_world.
Proof.
  assert (Hl : state_lock overrun_world = false) by reflexivity.
  assert (Hinv : invalid dec_float dec_int (SetTotal four_part_time)).
  { apply (inv_total_time dec_float dec_int four_part_time "1:2:3:4").
    - reflexivity.
    - reflexivity.
    - apply mt_part_count. simpl. lia. }
  split; [exact Hl|]. split; [exact Hinv|].
  exact (invalid_request_rejected dec_float dec_int
           (SetTotal four_part_time) overrun_world Hl Hinv).
Defined.

Lemma elapsed_invariant_witness :
  reachable dec_float dec_int overrun_world /\
  exists v : Q,
    now_elapsed overrun_world = Ret v overrun_world /\ (0 <= v)%Q /\
    forall d : Q, (0 <= d)%Q ->
      exists v' : Q,
        returns (elapse d ;; now_elapsed) overrun_world v' /\ (0 <= v')%Q /\
        (_paused overrun_world = false -> (v <= v')%Q) /\
        (_paused overrun_world = true -> (v' == v)%Q).
Proof.
  assert (Hr : reachable dec_float dec_int overrun_world).
  { apply (reach_elapse dec_float dec_int (initial 0 7200 8 EmptyString EmptyString) 7200%Q).
    - apply reach_initial.
    - unfold Qle; simpl; lia.
    - reflexivity. }
  split; [exact Hr|].
  exact (elapsed_invariant dec_float dec_int overrun_world Hr).
Defined.

Lemma set_total_clamp_blocks_witness :
  requests_total dec_float dec_int total_3600 3600 /\ 0 < 3600 /\
  now_elapsed overrun_world = Ret 7200%Q overrun_world /\
  (inject_Z 3600 < 7200)%Q /\
  exists w' : World,
    set_total dec_float dec_int total_3600 overrun_world = Hang w' /\
    TOTAL_SECONDS w' = 3600 /\ state_lock w' = true /\
    now_elapsed w' = Hang w'.
Proof.
  assert (Hreq : requests_total dec_float dec_int total_3600 3600).
  { apply (rt_seconds dec_float dec_int total_3600 3600 "3600"
             (Finite (inject_Z 3600))); reflexivity. }
  assert (Hn : 0 < 3600) by lia.
  assert (Hel : now_elapsed overrun_world = Ret 7200%Q overrun_world)
    by reflexivity.
  assert (Hlt : (inject_Z 3600 < 7200)%Q) by (unfold Qlt; simpl; lia).
  split; [exact Hreq|]. split; [exact Hn|]. split; [exact Hel|].
  split; [exact Hlt|].
  exact (set_total_clamp_blocks dec_float dec_int total_3600 3600
           overrun_world 7200%Q Hreq Hn Hel Hlt).
Defined.

Lemma set_total_can_block_forever_witness :
  requests_total dec_float dec_int total_3600 3600 /\ 0 < 3600 /\
  exists w w' : World,
    reachable dec_float dec_int w /\
    set_total dec_float dec_int total_3600 w = Hang w' /\
    state_lock w' = true /\
    now_elapsed w' = Hang w' /\
    pause_timer w' = Hang w' /\
    reset_timer w' = Hang w'.
Proof.
  assert (Hreq : requests_total dec_float dec_int total_3600 3600).
  { apply (rt_seconds dec_float dec_int total_3600 3600 "3600"
             (Finite (inject_Z 3600))); reflexivity. }
  assert (Hn : 0 < 3600) by lia.
  split; [exact Hreq|]. split; [exact Hn|].
  exact (set_total_can_block_forever dec_float dec_int total_3600 3600
           Hreq Hn).
Defined.

(** ** Clock text: formatting and parsing back *)

Lemma digit_char_facts (d : Z) :
  0 <= d <= 9 ->
  digit_val (digit_char d) = Some d /\
  is_space (digit_char d) = false /\
  Ascii.eqb (digit_char d) ":"%char = false.
Proof.
  intro H.
  assert (E : d = 0 \/ d = 1 \/ d = 2 \/ d = 3 \/ d = 4 \/ d = 5 \/ d = 6 \/
              d = 7 \/ d = 8 \/ d = 9) by lia.
  repeat (destruct E as [-> | E]; [repeat split; reflexivity|]).
  subst d. repeat split; reflexivity.
Qed.

Lemma plain_app (a b : string) : plain a -> plain b -> plain (a ++ b).
Proof.
  induction a as [|c a IH]; cbn [plain append]; [auto|].
  intros [Hc Ha] Hb. split; auto.
Qed.

Lemma digits_of_spec (fuel : nat) :
  forall (n : Z) (rest : string),
    0 <= n < 2 ^ Z.of_nat (S fuel) ->
    plain rest ->
    digits_of (S fuel) n rest <> EmptyString /\
    plain (digits_of (S fuel) n rest) /\
    exists k : Z, 0 <= k /\ forall a : Z,
      digits_val a (digits_of (S fuel) n rest)
      = digits_val (a * 10 ^ k + n) rest.
Proof.
  induction fuel as [|fuel IH]; intros n rest Hn Hrest;
    cbn [digits_of];
    assert (Hd : 0 <= n mod 10 <= 9)
      by (pose proof (Z.mod_pos_bound n 10); lia);
    destruct (digit_char_facts (n mod 10) Hd) as [Hv [Hs Hc]];
    destruct (n <? 10) eqn:E.
  - apply Z.ltb_lt in E. split; [discriminate|]. split; [cbn [plain]; auto|].
    exists 1. split; [lia|]. intro a. cbn [digits_val]. rewrite Hv.
    rewrite Z.mod_small by lia. f_equal; try rewrite Z.pow_1_r; lia.
  - apply Z.ltb_ge in E. change (2 ^ Z.of_nat 1) with 2 in Hn. lia.
  - apply Z.ltb_lt in E. split; [discriminate|]. split; [cbn [plain]; auto|].
    exists 1. split; [lia|]. intro a. cbn [digits_val]. rewrite Hv.
    rewrite Z.mod_small by lia. f_equal; try rewrite Z.pow_1_r; lia.
  - apply Z.ltb_ge in E.
    assert (Hq : 0 <= n / 10 < 2 ^ Z.of_nat (S fuel)).
    { split; [apply Z.div_pos; lia|].
      apply Z.div_lt_upper_bound; [lia|].
      rewrite (Nat2Z.inj_succ (S fuel)), Z.pow_succ_r in Hn by lia. lia. }
    assert (Hp : plain (String (digit_char (n mod 10)) rest))
      by (cbn [plain]; auto).
    destruct (IH (n / 10) _ Hq Hp) as [Hne [Hpl [k [Hk Hval]]]].
    split; [exact Hne|]. split; [exact Hpl|].
    exists (k + 1). split; [lia|]. intro a.
    rewrite Hval. cbn [digits_val]. rewrite Hv. f_equal.
    rewrite Z.pow_add_r, Z.pow_1_r by lia.
    pose proof (Z.div_mod n 10). nia.
Qed.

Lemma str_of_int_spec (n : Z) :
  0 <= n ->
  str_of_int n <> EmptyString /\ plain (str_of_int n) /\
  digits_val 0 (str_of_int n) = Some n.
Proof.
  intro Hn. unfold str_of_int.
  destruct (n <? 0) eqn:E; [apply Z.ltb_lt in E; lia|].
  assert (Hb : 0 <= n < 2 ^ Z.of_nat (S (Z.to_nat (Z.log2 n)))).
  { split; [exact Hn|].
    rewrite Nat2Z.inj_succ, Z2Nat.id by apply Z.log2_nonneg.
    destruct (Z.eq_dec n 0) as [-> | Hz]; [reflexivity|].
    apply Z.log2_spec. lia. }
  destruct (digits_of_spec _ n EmptyString Hb I) as [Hne [Hpl [k [_ Hval]]]].
  split; [exact Hne|]. split; [exact Hpl|].
  rewrite Hval. reflexivity.
Qed.

Lemma format_02d_spec (n : Z) :
  0 <= n ->
  format_02d n <> EmptyString /\ plain (format_02d n) /\
  digits_val 0 (format_02d n) = Some n.
Proof.
  intro Hn. destruct (str_of_int_spec n Hn) as [Hne [Hpl Hv]].
  unfold format_02d. destruct (String.length (str_of_int n) <? 2)%nat.
  - split; [discriminate|]. split.
    + cbn [plain]. repeat split; auto.
    + cbn [digits_val]. exact Hv.
  - auto.
Qed.

Lemma plain_no_space (s : string) : plain s -> no_space s.
Proof.
  induction s as [|c s IH]; cbn [plain no_space]; [auto|].
  intros [[Hs _] Hr]. auto.
Qed.

Lemma no_space_app (a b : string) :
  no_space a -> no_space b -> no_space (a ++ b).
Proof.
  induction a as [|c a IH]; cbn [no_space append]; [auto|].
  intros [Hc Ha] Hb. auto.
Qed.

Lemma no_space_Forall (s : string) :
  no_space s <-> Forall (fun c => is_space c = false) (list_ascii_of_string s).
Proof.
  induction s as [|c s IH]; cbn [no_space list_ascii_of_string].
  - split; auto.
  - split.
    + intros [Hc Hs]. constructor; [exact Hc | apply IH; exact Hs].
    + intro H. inversion H; subst. split; [assumption | apply IH; assumption].
Qed.

Lemma string_rev_involutive (s : string) : string_rev (string_rev s) = s.
Proof.
  unfold string_rev.
  rewrite list_ascii_of_string_of_list_ascii, rev_involutive.
  apply string_of_list_ascii_of_string.
Qed.

Lemma no_space_rev (s : string) : no_space s -> no_space (string_rev s).
Proof.
  intro H. apply no_space_Forall. unfold string_rev.
  rewrite list_ascii_of_string_of_list_ascii.
  apply Forall_rev. apply no_space_Forall. exact H.
Qed.

Lemma lstrip_no_space (s : string) : no_space s -> lstrip s = s.
Proof.
  destruct s as [|c s]; cbn [no_space lstrip]; [reflexivity|].
  intros [-> _]. reflexivity.
Qed.

(** [strip] leaves a string without blanks as it is. *)
Lemma strip_no_space (s : string) : no_space s -> strip s = s.
Proof.
  intro H. unfold strip.
  rewrite (lstrip_no_space s H).
  rewrite (lstrip_no_space _ (no_space_rev s H)).
  apply string_rev_involutive.
Qed.

Lemma split_colon_plain (a : string) : plain a -> split_colon a = [a].
Proof.
  induction a as [|c a IH]; cbn [plain split_colon]; [reflexivity|].
  intros [[_ Hc] Ha]. rewrite Hc, (IH Ha). reflexivity.
Qed.

Lemma split_colon_app (a b : string) :
  plain a -> split_colon (a ++ ":" ++ b) = a :: split_colon b.
Proof.
  change (":" ++ b) with (String ":" b).
  induction a as [|c a IH]; cbn [plain split_colon append].
  - intros _. reflexivity.
  - intros [[_ Hc] Ha]. rewrite Hc, (IH Ha). reflexivity.
Qed.

Section ClockTextFacts.

Variable int_of_str : string -> exn + Z.
Hypothesis int_reads_decimal : reads_decimal int_of_str.

Lemma int_of_formatted (n : Z) :
  0 <= n ->
  int_of_str (str_of_int n) = inr n /\ int_of_str (format_02d n) = inr n.
Proof.
  intro Hn.
  destruct (str_of_int_spec n Hn) as [H1 [_ H2]].
  destruct (format_02d_spec n Hn) as [H3 [_ H4]].
  split; apply int_reads_decimal; assumption.
Qed.

(** Formatting a second count and parsing the text back gives the count,
    with negative counts shown and read as zero. *)
Theorem format_parse_roundtrip : forall seconds : Z,
  parse_hms_to_seconds int_of_str (format_seconds_clock seconds)
  = inr (Z.max 0 seconds).
Proof.
  intro seconds. unfold format_seconds_clock.
  set (sec := if seconds <? 0 then 0 else seconds).
  assert (Hsec : sec = Z.max 0 seconds /\ 0 <= sec).
  { unfold sec. destruct (seconds <? 0) eqn:E;
      [apply Z.ltb_lt in E | apply Z.ltb_ge in E]; lia. }
  destruct Hsec as [Hmax Hpos]. rewrite <- Hmax. clear Hmax.
  assert (Hh : 0 <= sec / 3600) by (apply Z.div_pos; lia).
  assert (Hm : 0 <= (sec mod 3600) / 60).
  { apply Z.div_pos; [|lia]. pose proof (Z.mod_pos_bound sec 3600). lia. }
  assert (Hs : 0 <= sec mod 60) by (pose proof (Z.mod_pos_bound sec 60); lia).
  destruct (str_of_int_spec _ Hh) as [_ [Php _]].
  destruct (format_02d_spec _ Hm) as [_ [Pmp _]].
  destruct (format_02d_spec _ Hs) as [_ [Psp _]].
  destruct (int_of_formatted _ Hh) as [Ih _].
  destruct (int_of_formatted _ Hm) as [_ Im].
  destruct (int_of_formatted _ Hs) as [_ Is].
  assert (Hcolon : no_space ":") by (split; [reflexivity | exact I]).
  unfold parse_hms_to_seconds.
  destruct (0 <? sec / 3600) eqn:E.
  - rewrite strip_no_space
      by (repeat apply no_space_app; auto using plain_no_space).
    rewrite (split_colon_app _ _ Php), (split_colon_app _ _ Pmp),
      (split_colon_plain _ Psp).
    rewrite Ih, Im, Is. f_equal.
    clear - Hpos. Z.div_mod_to_equations. lia.
  - apply Z.ltb_ge in E.
    rewrite strip_no_space
      by (repeat apply no_space_app; auto using plain_no_space).
    rewrite (split_colon_app _ _ Pmp), (split_colon_plain _ Psp).
    rewrite Im, Is. f_equal.
    clear - Hpos E. Z.div_mod_to_equations. lia.
Qed.

End ClockTextFacts.

(** ** The pause instant in reachable states *)

Lemma keeps_ret {A : Type} (P : World -> Prop) (a : A) : keeps P (ret a).
Proof. intros w H. exact H. Qed.

Lemma keeps_raise {A : Type} (P : World -> Prop) (e : exn) :
  keeps P (@raise A e).
Proof. intros w H. exact H. Qed.

Lemma keeps_lift {A : Type} (P : World -> Prop) (r : exn + A) :
  keeps P (lift r).
Proof. destruct r; [apply keeps_raise | apply keeps_ret]. Qed.

Lemma keeps_gets {A : Type} (P : World -> Prop) (f : World -> A) :
  keeps P (gets f).
Proof. intros w H. exact H. Qed.

Lemma keeps_bind {A B : Type} (P : World -> Prop) (m : M A) (k : A -> M B) :
  keeps P m -> (forall a, keeps P (k a)) -> keeps P (bind m k).
Proof.
  intros Hm Hk w Hw. unfold bind. specialize (Hm w Hw).
  destruct (m w) as [a w' | e w' | w']; auto.
  apply Hk. exact Hm.
Qed.

Lemma keeps_try_except {A : Type} (P : World -> Prop)
  (m : M A) (h : exn -> M A) :
  keeps P m -> (forall e, keeps P (h e)) -> keeps P (try_except m h).
Proof.
  intros Hm Hh w Hw. unfold try_except. specialize (Hm w Hw).
  destruct (m w) as [a w' | e w' | w']; auto.
  apply Hh. exact Hm.
Qed.

Ltac pause_ok_clock :=
  intros [t l tot ne lg msg st off pa pe] [Hl Hp]; simpl in *; subst l;
  unfold_clock; simpl.

Lemma pause_ok_total_seconds : keeps pause_ok total_seconds.
Proof. pause_ok_clock. split; auto. Qed.

Lemma pause_ok_num_ends : keeps pause_ok num_ends.
Proof. pause_ok_clock. split; auto. Qed.

Lemma pause_ok_now_elapsed : keeps pause_ok now_elapsed.
Proof.
  pause_ok_clock. destruct pa; [destruct pe|]; simpl; split; auto.
Qed.

Lemma pause_ok_set_elapsed (x : Q) : keeps pause_ok (set_elapsed x).
Proof. pause_ok_clock. split; auto. Qed.

Lemma pause_ok_reset_timer : keeps pause_ok reset_timer.
Proof. pause_ok_clock. split; auto. Qed.

Lemma pause_ok_pause_timer : keeps pause_ok pause_timer.
Proof.
  pause_ok_clock. destruct pa; simpl; split; simpl; auto.
  split; [reflexivity | apply Qle_refl].
Qed.

Lemma pause_ok_resume_timer : keeps pause_ok resume_timer.
Proof.
  pause_ok_clock. destruct pa; [destruct pe|]; simpl; split; simpl; auto.
Qed.

Lemma pause_ok_elapse (d : Q) : (0 <= d)%Q -> keeps pause_ok (elapse d).
Proof.
  intro Hd. pause_ok_clock. split; simpl; auto.
  destruct pe as [p|]; [|exact Hp]. destruct Hp as [Hpa Hle].
  split; [exact Hpa | lra].
Qed.

Lemma pause_ok_set_total_block (new_total : Z) (el : Q) :
  keeps pause_ok
    (with_state_lock
       (modify (set_TOTAL_SECONDS new_total) ;;
        total <- gets TOTAL_SECONDS ;;
        if Qltb (inject_Z total) el
        then set_elapsed (inject_Z total)
        else ret tt)).
Proof.
  pause_ok_clock. destruct (Qltb (inject_Z new_total) el); simpl; [exact I|].
  split; auto.
Qed.

Lemma pause_ok_set_ends_block (n : Z) :
  keeps pause_ok (with_state_lock (modify (set_NUM_ENDS n))).
Proof. pause_ok_clock. split; auto. Qed.

Lemma pause_ok_status_block :
  keeps pause_ok (with_state_lock (paused <- gets _paused ;;
                                   logo <- gets LOGO_URL ;;
                                   ret (paused, logo))).
Proof. pause_ok_clock. split; auto. Qed.

Create HintDb pause_db.
#[local] Hint Resolve keeps_ret keeps_raise keeps_lift keeps_gets
  pause_ok_total_seconds pause_ok_num_ends pause_ok_now_elapsed
  pause_ok_set_elapsed pause_ok_reset_timer pause_ok_pause_timer
  pause_ok_resume_timer pause_ok_set_total_block pause_ok_set_ends_block
  pause_ok_status_block : pause_db.

Ltac keeps_steps :=
  repeat first
    [ progress auto with pause_db
    | apply keeps_bind; [| intro]
    | apply keeps_try_except; [| intro]
    | match goal with
      | |- keeps _ (if ?b then _ else _) => destruct b
      | |- keeps _ (match ?x with _ => _ end) => destruct x
      end ].

Lemma pause_ok_wf (w : World) : pause_ok w -> wf w.
Proof.
  intros [Hl Hp]. split; [exact Hl|]. intro Hpa.
  destruct (_pause_epoch w) as [p|]; [eexists; reflexivity | congruence].
Qed.

Section ReachableFacts.

Variable float_of_str : string -> exn + pyfloat.
Variable int_of_str : string -> exn + Z.

Lemma pause_ok_run_op (o : op) :
  keeps pause_ok (run_op float_of_str int_of_str o).
Proof.
  destruct o; unfold run_op, reset, pause, resume, status, set_remaining,
    set_remaining_try, set_total, set_total_try, set_ends, add_time,
    subtract_time; keeps_steps.
Qed.

Lemma reachable_pause_ok (w : World) :
  reachable float_of_str int_of_str w -> pause_ok w.
Proof.
  induction 1 as [t0 total ends logo msg | w o w' _ IH Hrun
                 | w d w' _ IH Hd Hrun].
  - split; reflexivity.
  - pose proof (pause_ok_run_op o w IH) as Hs. rewrite Hrun in Hs. exact Hs.
  - pose proof (pause_ok_elapse d Hd w IH) as Hs. rewrite Hrun in Hs.
    exact Hs.
Qed.

(** In every reachable state the lock is free, the clock is paused exactly
    when a pause instant is stored, and that instant is not later than the
    wall clock. *)
Theorem reachable_pause_instant : forall w : World,
  reachable float_of_str int_of_str w ->
  state_lock w = false /\
  (_paused w = true <-> exists p, _pause_epoch w = Some p) /\
  (forall p, _pause_epoch w = Some p -> (p <= wall_clock w)%Q).
Proof.
  intros w Hr. destruct (reachable_pause_ok w Hr) as [Hl Hp].
  split; [exact Hl|].
  destruct (_pause_epoch w) as [p|].
  - destruct Hp as [Hpa Hle]. split.
    + split; [eauto | intros _; exact Hpa].
    + intros q Hq. inversion Hq; subst. exact Hle.
  - split.
    + split; [congruence | intros [p Hp']; discriminate].
    + intros q Hq. discriminate.
Qed.

(** In every reachable state, running or paused, [reset_timer] completes,
    keeps the pause flag, and the reading right after it is 0. *)
Theorem reset_reads_zero : forall w : World,
  reachable float_of_str int_of_str w ->
  exists w' : World,
    reset_timer w = Ret tt w' /\
    _paused w' = _paused w /\
    now_elapsed w' = Ret 0%Q w'.
Proof.
  intros w Hr. destruct (reachable_pause_ok w Hr) as [Hl Hp].
  destruct w as [t l tot ne lg msg st off pa pe]. simpl in *. subst l.
  eexists. split; [unfold_clock; simpl; reflexivity|].
  split; [reflexivity|].
  unfold_clock; simpl.
  destruct pe as [p|].
  - destruct Hp as [-> Hle]. simpl. f_equal.
    unfold py_max.
    destruct (Qltb 0 (p - t + 0)) eqn:E; [|reflexivity].
    apply Qltb_true in E. lra.
  - subst pa. simpl. f_equal.
    unfold py_max.
    destruct (Qltb 0 (t - t + 0)) eqn:E; [|reflexivity].
    apply Qltb_true in E. lra.
Qed.

End ReachableFacts.

(** ** Status, set-remaining and set-ends on well-formed input *)


Section RequestFacts.

Variable float_of_str : string -> exn + pyfloat.
Variable int_of_str : string -> exn + Z.

Lemma requests_remaining_shape (args : request_args) (f : pyfloat) :
  requests_remaining float_of_str int_of_str args f ->
  forall w, state_lock w = false ->
    set_remaining float_of_str int_of_str args w
    = set_remaining_try (TOTAL_SECONDS w) (ret f) w.
Proof.
  intros [s Hs Hf | t n q Hs Ht Hp Hq ->] w Hl;
    unfold set_remaining, bind at 1; rewrite (total_seconds_free w Hl), Hs.
  - unfold set_remaining_try, try_except, bind at 1, lift. rewrite Hf.
    reflexivity.
  - rewrite Ht. unfold set_remaining_try, try_except.
    unfold bind at 1. unfold bind at 1. unfold lift at 1. rewrite Hp.
    unfold ret at 1. unfold bind at 1. unfold lift at 1. rewrite Hq.
    reflexivity.
Qed.


(** A remaining time or a total beyond the float range is a rejected
    request: [float] raises inside the [try], the handler answers 400 with
    the error text, and the state is left as it was. *)
Theorem set_remaining_overflow_rejected :
  forall (args : request_args) (w : World),
    state_lock w = false ->
    (exists f, requests_remaining float_of_str int_of_str args f /\
               float_int_limit <= Z.abs (TOTAL_SECONDS w))
    \/ (exists t n, args_get "seconds" args = None /\
                    args_get "time" args = Some t /\
                    parse_hms_to_seconds int_of_str t = inr n /\
                    float_int_limit <= Z.abs n) ->
    set_remaining float_of_str int_of_str args w
    = Ret (rejection "int too large to convert to float") w.
Proof.
  intros args w Hl [[f [Hreq Hbig]] | [t [n [Hs [Ht [Hp Hbig]]]]]].
  - rewrite (requests_remaining_shape args f Hreq w Hl).
    unfold set_remaining_try, try_except.
    unfold bind at 1. unfold ret at 1. unfold bind at 1. unfold lift at 1.
    rewrite (float_of_int_overflow _ Hbig). reflexivity.
  - unfold set_remaining, bind at 1.
    rewrite (total_seconds_free w Hl), Hs, Ht.
    unfold set_remaining_try, try_except.
    unfold bind at 1. unfold bind at 1. unfold lift at 1. rewrite Hp.
    unfold ret at 1. unfold bind at 1. unfold lift at 1.
    rewrite (float_of_int_overflow _ Hbig). reflexivity.
Qed.

(** [max(0.0, min(rem, ftot))], with [ftot] the float of the total, on
    every kind of float [rem]: nan, -inf and anything [<= 0] give 0.0; a
    value in (0, ftot] is kept; +inf and anything above an [ftot > 0] give
    [ftot]. *)
Theorem clamp_remaining_cases : forall ftot : Q,
  clamp_remaining_flt NaN ftot = Finite 0 /\
  clamp_remaining_flt NegInf ftot = Finite 0 /\
  ((0 < ftot)%Q -> clamp_remaining_flt PosInf ftot = Finite ftot) /\
  (forall q : Q, (q <= 0)%Q ->
                 clamp_remaining_flt (Finite q) ftot = Finite 0) /\
  (forall q : Q, (0 < q <= ftot)%Q ->
                 clamp_remaining_flt (Finite q) ftot = Finite q) /\
  (forall q : Q, (0 < ftot)%Q -> (ftot < q)%Q ->
                 clamp_remaining_flt (Finite q) ftot = Finite ftot).
Proof.
  intro ftot.
  unfold clamp_remaining_flt, flt_max, flt_min.
  split; [reflexivity|]. split; [reflexivity|]. split.
  - intro Htot. simpl.
    destruct (Qltb 0 ftot) eqn:E; [reflexivity|].
    apply Qltb_false in E. lra.
  - split; [|split].
    + intros q Hq. simpl.
      destruct (Qltb ftot q) eqn:E1; simpl.
      * apply Qltb_true in E1.
        destruct (Qltb 0 ftot) eqn:E2;
          [apply Qltb_true in E2; lra | reflexivity].
      * destruct (Qltb 0 q) eqn:E2;
          [apply Qltb_true in E2; lra | reflexivity].
    + intros q Hq. simpl.
      destruct (Qltb ftot q) eqn:E1;
        [apply Qltb_true in E1; lra|]. simpl.
      destruct (Qltb 0 q) eqn:E2; [reflexivity|apply Qltb_false in E2; lra].
    + intros q Htot Hq. simpl.
      destruct (Qltb ftot q) eqn:E1;
        [|apply Qltb_false in E1; lra]. simpl.
      destruct (Qltb 0 ftot) eqn:E2; [reflexivity|].
      apply Qltb_false in E2. lra.
Qed.

(** A [set_ends] request with a count [n >= 1] stores [n], answers 200 with
    it, and touches nothing else: total, pause state and reading stay. *)
Theorem set_ends_stores :
  forall (args : request_args) (c : string) (n : Z) (w : World),
    args_get "count" args = Some c -> c <> EmptyString ->
    int_of_str c = inr n -> 1 <= n ->
    state_lock w = false ->
    set_ends int_of_str args w
    = Ret ([("ok", JBool true); ("num_ends", JInt n)], 200)
          (set_NUM_ENDS n w) /\
    reading (set_NUM_ENDS n w) = reading w.
Proof.
  intros args c n w Hc Hne Hi Hn Hl. split; [|reflexivity].
  unfold set_ends. rewrite Hc.
  destruct c as [|a c']; [congruence|].
  unfold try_except, bind at 1, lift. rewrite Hi.
  unfold ret at 1.
  destruct (n <? 1) eqn:E; [apply Z.ltb_lt in E; lia|].
  destruct w as [t l tot ne lg msg st off pa pe]. simpl in *. subst l.
  reflexivity.
Qed.

End RequestFacts.

(** The SPACE key of the display loop never toggles the pause: whatever the
    state, the handler blocks for good on [state_lock], pause flag and
    pause instant stay as they were, and the lock is held from then on. *)
Theorem key_space_never_toggles : forall w : World,
  exists w' : World,
    key_space w = Hang w' /\
    state_lock w' = true /\
    _paused w' = _paused w /\
    _pause_epoch w' = _pause_epoch w /\
    now_elapsed w' = Hang w'.
Proof.
  intros [t l tot ne lg msg st off pa pe].
  unfold_clock; simpl. destruct l; simpl.
  - eexists. repeat split.
  - destruct pa; simpl; eexists; repeat split.
Qed.

(** ** Boxes row: geometry, fill widths and pointer *)

Lemma Qtrunc_floor (q : Q) : (0 <= q)%Q -> Qtrunc q = Qfloor q.
Proof.
  destruct q as [n d]. unfold Qle, Qtrunc, Qfloor. simpl. intro H.
  apply Z.quot_div_nonneg; lia.
Qed.

Lemma Qtrunc_bounds (q : Q) :
  (0 <= q)%Q -> (inject_Z (Qtrunc q) <= q < inject_Z (Qtrunc q) + 1)%Q.
Proof.
  intro H. rewrite (Qtrunc_floor q H). split; [apply Qfloor_le|].
  pose proof (Qlt_floor q) as Hlt.
  rewrite inject_Z_plus in Hlt. exact Hlt.
Qed.

Lemma inject_Z_nonneg (n : Z) : 0 <= n -> (0 <= inject_Z n)%Q.
Proof. intro H. unfold Qle; simpl; lia. Qed.

Lemma inject_Z_pos (n : Z) : 0 < n -> (0 < inject_Z n)%Q.
Proof. intro H. unfold Qlt; simpl; lia. Qed.

Lemma map_combine_ext {A B : Type} (g : Z -> A -> B) (h : A -> B) :
  forall (l : list A) (idxs : list Z),
    List.length idxs = List.length l ->
    (forall i a, In (i, a) (combine idxs l) -> g i a = h a) ->
    map (fun ia => g (fst ia) (snd ia)) (combine idxs l) = map h l.
Proof.
  induction l as [|a l IH]; intros [|i idxs] Hlen H; simpl in *;
    try reflexivity; try discriminate.
  f_equal; [apply H; left; reflexivity|].
  apply IH; [congruence|]. intros j b Hin. apply H. right. exact Hin.
Qed.

Lemma Forall2_map_combine {A B : Type} (g : Z -> A -> B)
  (P : B -> A -> Prop) :
  forall (l : list A) (idxs : list Z),
    List.length idxs = List.length l ->
    (forall i a, In a l -> P (g i a) a) ->
    Forall2 P (map (fun ia => g (fst ia) (snd ia)) (combine idxs l)) l.
Proof.
  induction l as [|a l IH]; intros [|i idxs] Hlen H; simpl in *;
    try constructor; try discriminate.
  - apply H. left. reflexivity.
  - apply IH; [congruence|]. intros j b Hin. apply H. right. exact Hin.
Qed.

Lemma enumerate_lengths {A : Type} (l : list A) :
  List.length (range (Z.of_nat (List.length l))) = List.length l.
Proof. rewrite range_length. apply Nat2Z.id. Qed.

Lemma frame_partial_bounds (el : Q) (total : Z) (rects : list Rect) :
  (0 <= partial (draw_boxes el total rects) < 1)%Q.
Proof.
  destruct (frame_fraction_bounds el total rects) as [[Hf0 Hf1] _].
  simpl in *.
  set (u := (py_max 0 (py_min 1 (el / (if total =? 0 then 1 else inject_Z total)))
             * inject_Z (Z.of_nat (List.length rects)))%Q) in *.
  assert (Hu : (0 <= u)%Q).
  { unfold u. apply Qmult_le_0_compat; [exact Hf0|].
    apply inject_Z_nonneg. lia. }
  pose proof (Qtrunc_bounds u Hu). lra.
Qed.

Lemma fill_w_bounds (fb : Z) (p : Q) (idx : Z) (r : Rect) :
  (0 <= p < 1)%Q -> 6 <= rect_width r ->
  0 <= fill_w fb p idx r <= rect_width r - 6.
Proof.
  intros Hp Hw. unfold fill_w.
  destruct (idx <? fb); [lia|]. destruct (idx =? fb); [|lia].
  assert (HW : (0 <= inject_Z (rect_width r - 6))%Q)
    by (apply inject_Z_nonneg; lia).
  assert (H0 : (0 <= inject_Z (rect_width r - 6) * p)%Q)
    by (apply Qmult_le_0_compat; lra).
  split; [apply Qtrunc_nonneg; exact H0|].
  apply Qtrunc_le_int; [exact H0|].
  rewrite <- (Qmult_1_r (inject_Z (rect_width r - 6))) at 2.
  rewrite (Qmult_comm _ p), (Qmult_comm _ 1).
  apply Qmult_le_compat_r; lra.
Qed.

(** Whatever the reading, for a total that [float] can convert the boxes
    row is computed and each box is filled by a width between 0 and its
    inner width (the box width less the 3-pixel border on both sides), for
    boxes at least 6 wide; the partial remainder lies in [0, 1). *)
Theorem fill_widths_bounded :
  forall (el : Q) (total : Z) (rects : list Rect),
    Z.abs total < float_int_limit ->
    (forall r, In r rects -> 6 <= rect_width r) ->
    exists f : Frame,
      boxes_row el total rects = inr f /\
      (0 <= partial f < 1)%Q /\
      Forall2 (fun fw r => 0 <= fw <= rect_width r - 6) (fill_ws f) rects.
Proof.
  intros el total rects Htot Hw.
  set (f := draw_boxes el total rects).
  exists f. split.
  { unfold boxes_row. rewrite (float_of_int_in_range total Htot).
    reflexivity. }
  pose proof (frame_partial_bounds el total rects) as Hp. fold f in Hp.
  split; [exact Hp|].
  unfold f, draw_boxes, enumerate; cbn [fill_ws].
  apply (Forall2_map_combine
           (fill_w (full_boxes f) (partial f))
           (fun fw r => 0 <= fw <= rect_width r - 6)).
  - apply enumerate_lengths.
  - intros i r Hin. apply fill_w_bounds; [exact Hp | apply Hw; exact Hin].
Qed.





(** Once the reading has reached a total [> 0], for any number of boxes:
    the fraction is 1, every box is full, nothing is left for a partial
    box, and the pointer stands on the last box. *)
Theorem overrun_fills_all :
  forall (el : Q) (total : Z) (rects : list Rect),
    0 < total -> (inject_Z total <= el)%Q -> rects <> [] ->
    let f := draw_boxes el total rects in
    let N := Z.of_nat (List.length rects) in
    frac f = 1%Q /\
    full_boxes f = N /\
    (partial f == 0)%Q /\
    fill_ws f = map (fun r => rect_width r - 6) rects /\
    current_idx f = N - 1 /\
    exists r, current_rect f = inr r.
Proof.
  intros el total rects Htot Hle Hne f N.
  assert (Htq : (0 < inject_Z total)%Q) by (apply inject_Z_pos; exact Htot).
  assert (HN : 1 <= N)
    by (unfold N; destruct rects; [congruence | simpl; lia]).
  assert (Hfrac : frac f = 1%Q).
  { unfold f, draw_boxes; cbn [frac].
    destruct (total =? 0) eqn:E; [apply Z.eqb_eq in E; lia|].
    assert (Hd : (1 <= el / inject_Z total)%Q)
      by (apply Qle_shift_div_l; lra).
    unfold py_min.
    destruct (Qltb (el / inject_Z total) 1) eqn:E1;
      [apply Qltb_true in E1; lra|].
    reflexivity. }
  assert (Hfull : full_boxes f = N).
  { change (full_boxes f) with (Qtrunc (frac f * inject_Z N)).
    rewrite Hfrac. unfold Qtrunc, Qmult; cbn [Qnum Qden inject_Z].
    rewrite Z.mul_1_l. apply Z.quot_1_r. }
  assert (Hpart : (partial f == 0)%Q).
  { change (partial f)
      with (frac f * inject_Z N - inject_Z (full_boxes f))%Q.
    rewrite Hfrac, Hfull. ring. }
  split; [exact Hfrac|]. split; [exact Hfull|]. split; [exact Hpart|].
  assert (Hidx : current_idx f = N - 1).
  { change (current_idx f) with (Z.min (N - 1) (Z.max 0 (full_boxes f))).
    rewrite Hfull. lia. }
  split; [|split; [exact Hidx|]].
  - change (fill_ws f)
      with (map (fun ir => fill_w (full_boxes f) (partial f) (fst ir) (snd ir))
                (enumerate rects)).
    unfold enumerate. apply map_combine_ext; [apply enumerate_lengths|].
    intros i r Hin. apply enumerate_index_bound in Hin.
    unfold fill_w. rewrite Hfull.
    destruct (i <? N) eqn:E; [reflexivity|].
    apply Z.ltb_ge in E. unfold N in E. lia.
  - change (current_rect f) with (list_index rects (current_idx f)).
    rewrite Hidx. apply list_index_in_range. unfold N in *. lia.
Qed.

Section GeometryFacts.

Variables grid_width box_margin grid_h grid_top grid_bottom grid_left : Z.

Local Abbreviation row N :=
  (recompute_boxes grid_width box_margin grid_h grid_top grid_bottom
     grid_left N).

Lemma row_member (N : Z) (r : Rect) :
  In r (row N) ->
  exists i : Z,
    0 <= i < Z.max 1 N /\
    r = mkRect
          (grid_left + box_margin
           + i * (Z.quot (grid_width - (Z.max 1 N + 1) * box_margin)
                         (Z.max 1 N) + box_margin))
          (grid_top
           + (grid_bottom - grid_top
              - Z.min grid_h (grid_bottom - grid_top)) / 2)
          (Z.quot (grid_width - (Z.max 1 N + 1) * box_margin) (Z.max 1 N))
          (Z.min grid_h (grid_bottom - grid_top)).
Proof.
  unfold recompute_boxes, range. rewrite map_map. intro H.
  apply in_map_iff in H. destruct H as [k [<- Hk]].
  apply in_seq in Hk. exists (Z.of_nat k). split; [lia | reflexivity].
Qed.

(** The row always has [max(1, N)] boxes, all of one size and on one
    line.  Each box lies between the top and the bottom of the grid; with a
    margin [>= 0] and a grid wide enough for the margins, no box is
    narrower than 0 and each keeps the margin to both grid edges. *)
Theorem boxes_fit_grid : forall (N : Z),
  0 <= box_margin -> (Z.max 1 N + 1) * box_margin <= grid_width ->
  Z.of_nat (List.length
              (recompute_boxes grid_width box_margin grid_h grid_top
                 grid_bottom grid_left N)) = Z.max 1 N /\
  forall r : Rect,
    In r (recompute_boxes grid_width box_margin grid_h grid_top grid_bottom
            grid_left N) ->
    0 <= rect_width r /\
    grid_left + box_margin <= rect_left r /\
    rect_left r + rect_width r + box_margin <= grid_left + grid_width /\
    grid_top <= rect_top r /\
    rect_top r + rect_height r <= grid_bottom.
Proof.
  intros N Hm Hw.
  split; [unfold recompute_boxes; rewrite length_map, range_length; lia|].
  intros r Hin. destruct (row_member N r Hin) as [i [Hi ->]].
  cbn [rect_left rect_top rect_width rect_height].
  set (n := Z.max 1 N) in *.
  set (num := grid_width - (n + 1) * box_margin) in *.
  assert (Hn : 1 <= n) by (unfold n; lia).
  assert (Hnum : 0 <= num) by (unfold num; lia).
  assert (Hq0 : 0 <= Z.quot num n) by (apply Z.quot_pos; lia).
  assert (Hq1 : n * Z.quot num n <= num)
    by (apply Z.mul_quot_le; lia).
  set (bw := Z.quot num n) in *.
  set (slack := grid_bottom - grid_top - Z.min grid_h (grid_bottom - grid_top)).
  assert (Hs : 0 <= slack) by (unfold slack; lia).
  assert (Hs2 : 0 <= slack / 2 <= slack).
  { split; [apply Z.div_pos; lia|].
    apply Z.div_le_upper_bound; lia. }
  split; [exact Hq0|]. split; [nia|]. split; [|split].
  - assert ((i + 1) * (bw + box_margin) <= n * (bw + box_margin)) by nia.
    unfold num in Hq1. nia.
  - lia.
  - unfold slack in *. lia.
Qed.

(** Boxes are laid out left to right without overlap: a box further right
    starts at least one margin after an earlier box ends (margin [>= 0],
    grid wide enough for the margins). *)
Theorem boxes_left_to_right : forall (N : Z) (i j : nat) (ri rj : Rect),
  0 <= box_margin -> (Z.max 1 N + 1) * box_margin <= grid_width ->
  (i < j)%nat -> nth_error (row N) i = Some ri ->
  nth_error (row N) j = Some rj ->
  rect_left ri + rect_width ri + box_margin <= rect_left rj.
Proof.
  intros N i j ri rj Hm Hw Hij Hi Hj.
  assert (Hseq : forall (k : nat) (r : Rect),
             nth_error (row N) k = Some r ->
             In r (row N) /\
             rect_left r
             = grid_left + box_margin
               + Z.of_nat k
                 * (Z.quot (grid_width - (Z.max 1 N + 1) * box_margin)
                           (Z.max 1 N) + box_margin) /\
             rect_width r
             = Z.quot (grid_width - (Z.max 1 N + 1) * box_margin)
                      (Z.max 1 N)).
  { intros k r Hk. split; [apply (nth_error_In _ _ Hk)|].
    unfold recompute_boxes, range in Hk. rewrite map_map in Hk.
    rewrite nth_error_map in Hk.
    destruct (nth_error (seq 0 (Z.to_nat (Z.max 1 N))) k) as [a|] eqn:Ea;
      [|discriminate].
    assert (Hlen : (k < Z.to_nat (Z.max 1 N))%nat).
    { rewrite <- (length_seq (Z.to_nat (Z.max 1 N)) 0).
      apply nth_error_Some. congruence. }
    apply nth_error_nth with (d := 0%nat) in Ea.
    pose proof (seq_nth 0 0%nat Hlen) as Hn.
    rewrite Hn in Ea. simpl in Ea. subst a.
    simpl in Hk. inversion Hk. split; reflexivity. }
  destruct (Hseq i ri Hi) as [_ [Hli Hwi]].
  destruct (Hseq j rj Hj) as [_ [Hlj _]].
  rewrite Hli, Hwi, Hlj.
  set (n := Z.max 1 N) in *.
  set (num := grid_width - (n + 1) * box_margin) in *.
  assert (Hq0 : 0 <= Z.quot num n) by (apply Z.quot_pos; unfold num, n; lia).
  set (bw := Z.quot num n) in *.
  nia.
Qed.

End GeometryFacts.

(** ** One pass of the display loop *)

Lemma num_ends_free (w : World) :
  state_lock w = false -> num_ends w = Ret (NUM_ENDS w) w.
Proof.
  destruct w as [t l tot ne lg msg st off pa pe]. simpl. intros ->.
  reflexivity.
Qed.

Lemma total_seconds_at (w : World) :
  state_lock w = false -> total_seconds w = Ret (TOTAL_SECONDS w) w.
Proof.
  destruct w as [t l tot ne lg msg st off pa pe]. simpl. intros ->.
  reflexivity.
Qed.

Lemma paused_free (w : World) :
  state_lock w = false -> with_state_lock (gets _paused) w = Ret (_paused w) w.
Proof.
  destruct w as [t l tot ne lg msg st off pa pe]. simpl. intros ->.
  reflexivity.
Qed.

Lemma pointer_lookup_nonempty (el : Q) (total : Z) (rects : list Rect) :
  rects <> [] -> exists r, current_rect (draw_boxes el total rects) = inr r.
Proof.
  intro Hne. unfold draw_boxes; cbn [current_rect].
  apply list_index_in_range.
  assert (1 <= Z.of_nat (List.length rects))
    by (destruct rects; [congruence | simpl; lia]).
  lia.
Qed.

Section LoopFacts.

Variables grid_width box_margin grid_h grid_top grid_bottom grid_left : Z.

Local Abbreviation row N :=
  (recompute_boxes grid_width box_margin grid_h grid_top grid_bottom
     grid_left N).
Local Abbreviation sync l :=
  (sync_boxes grid_width box_margin grid_h grid_top grid_bottom grid_left l).
Local Abbreviation pass l :=
  (loop_pass grid_width box_margin grid_h grid_top grid_bottom grid_left l).

Lemma row_length (N : Z) : Z.of_nat (List.length (row N)) = Z.max 1 N.
Proof.
  unfold recompute_boxes. rewrite length_map, range_length. lia.
Qed.

Lemma sync_boxes_spec (l : list Rect) (w : World) :
  state_lock w = false ->
  sync l w
  = Ret (if negb (Z.of_nat (List.length l) =? NUM_ENDS w)
         then row (NUM_ENDS w) else l) w.
Proof.
  intro Hl. unfold sync_boxes, bind at 1. rewrite (num_ends_free w Hl).
  destruct (negb (Z.of_nat (List.length l) =? NUM_ENDS w));
    [|reflexivity].
  unfold bind. rewrite (num_ends_free w Hl). reflexivity.
Qed.

Lemma sync_boxes_length (l : list Rect) (w : World) :
  l <> [] ->
  Z.of_nat (List.length (if negb (Z.of_nat (List.length l) =? NUM_ENDS w)
                         then row (NUM_ENDS w) else l))
  = Z.max 1 (NUM_ENDS w).
Proof.
  intro Hne.
  destruct (Z.of_nat (List.length l) =? NUM_ENDS w) eqn:E; simpl.
  - apply Z.eqb_eq in E.
    assert (1 <= Z.of_nat (List.length l))
      by (destruct l; [congruence | simpl; lia]).
    lia.
  - apply row_length.
Qed.

Lemma timer_text_spec (w : World) :
  wf w ->
  timer_text w
  = Ret (reading w,
         let text := format_seconds_clock
                       (Z.min (Qtrunc (reading w)) (TOTAL_SECONDS w)) in
         if _paused w then text ++ "  (paused)" else text) w.
Proof.
  intro Hwf. pose proof Hwf as [Hl _].
  unfold timer_text, bind at 1. rewrite (now_elapsed_reading w Hwf).
  unfold bind at 1. rewrite (total_seconds_at w Hl).
  unfold bind at 1. rewrite (paused_free w Hl).
  reflexivity.
Qed.

Lemma loop_pass_spec (box_rects : list Rect) (w : World) :
  wf w ->
  pass box_rects w
  = let boxes := if negb (Z.of_nat (List.length box_rects) =? NUM_ENDS w)
                 then row (NUM_ENDS w) else box_rects in
    let shown := format_seconds_clock
                   (Z.min (Qtrunc (reading w)) (TOTAL_SECONDS w)) in
    match boxes_row (reading w) (TOTAL_SECONDS w) boxes with
    | inl e => Raise e w
    | inr f =>
        Ret (boxes, if _paused w then shown ++ "  (paused)" else shown, f) w
    end.
Proof.
  intro Hwf. pose proof Hwf as [Hl _]. cbn zeta.
  unfold loop_pass, bind at 1. rewrite (sync_boxes_spec box_rects w Hl).
  unfold bind at 1. rewrite (timer_text_spec w Hwf).
  unfold bind at 1. rewrite (total_seconds_at w Hl).
  unfold bind, lift. cbn [fst snd].
  destruct (boxes_row (reading w) (TOTAL_SECONDS w)
              (if negb (Z.of_nat (List.length box_rects) =? NUM_ENDS w)
               then row (NUM_ENDS w) else box_rects));
    reflexivity.
Qed.

(** One pass of the display loop over a non-empty box list, from any
    well-formed state whose total [float] can convert: it completes and
    leaves the state as it was, goes on with exactly [max(1, NUM_ENDS)]
    boxes, shows the truncated reading capped at the total (with the paused
    mark when paused), and the pointer lookup [box_rects[current_idx]]
    finds a box. *)
Theorem loop_pass_completes : forall (box_rects : list Rect) (w : World),
  wf w -> box_rects <> [] ->
  Z.abs (TOTAL_SECONDS w) < float_int_limit ->
  exists (boxes : list Rect) (text : string) (f : Frame),
    pass box_rects w = Ret (boxes, text, f) w /\
    Z.of_nat (List.length boxes) = Z.max 1 (NUM_ENDS w) /\
    text = (let shown := format_seconds_clock
                           (Z.min (Qtrunc (reading w)) (TOTAL_SECONDS w)) in
            if _paused w then shown ++ "  (paused)" else shown) /\
    boxes_row (reading w) (TOTAL_SECONDS w) boxes = inr f /\
    f = draw_boxes (reading w) (TOTAL_SECONDS w) boxes /\
    exists r : Rect, current_rect f = inr r.
Proof.
  intros box_rects w Hwf Hne Htot.
  set (boxes := if negb (Z.of_nat (List.length box_rects) =? NUM_ENDS w)
                then row (NUM_ENDS w) else box_rects).
  assert (Hlen : Z.of_nat (List.length boxes) = Z.max 1 (NUM_ENDS w))
    by (apply sync_boxes_length; exact Hne).
  assert (Hrow : boxes_row (reading w) (TOTAL_SECONDS w) boxes
                 = inr (draw_boxes (reading w) (TOTAL_SECONDS w) boxes)).
  { unfold boxes_row. rewrite (float_of_int_in_range _ Htot). reflexivity. }
  exists boxes. do 2 eexists. split.
  - rewrite (loop_pass_spec box_rects w Hwf). cbn zeta. fold boxes.
    rewrite Hrow. reflexivity.
  - split; [exact Hlen|]. split; [reflexivity|]. split; [exact Hrow|].
    split; [reflexivity|].
    apply pointer_lookup_nonempty.
    intro E. rewrite E in Hlen. simpl in Hlen. lia.
Qed.

(** With a stored total beyond the float range every pass of the display
    loop ends in an [OverflowError] from [float(total_seconds())], which
    nothing in the loop catches; the state is left as it was. *)
Theorem loop_pass_overflow_raises :
  forall (box_rects : list Rect) (w : World),
    wf w -> float_int_limit <= Z.abs (TOTAL_SECONDS w) ->
    pass box_rects w
    = Raise (OverflowError "int too large to convert to float") w.
Proof.
  intros box_rects w Hwf Hbig.
  rewrite (loop_pass_spec box_rects w Hwf). cbn zeta.
  unfold boxes_row. rewrite (float_of_int_overflow _ Hbig). reflexivity.
Qed.

(** After a [set_ends] request for [n >= 1] boxes the next pass of the
    loop goes on with exactly [n] boxes, whatever the list was before. *)
Theorem set_ends_resizes_row :
  forall (int_of_str : string -> exn + Z) (args : request_args)
         (c : string) (n : Z) (old : list Rect) (w : World),
    args_get "count" args = Some c -> c <> EmptyString ->
    int_of_str c = inr n -> 1 <= n -> state_lock w = false ->
    exists (boxes : list Rect) (w' : World),
      (set_ends int_of_str args ;; sync old) w = Ret boxes w' /\
      Z.of_nat (List.length boxes) = n /\
      NUM_ENDS w' = n.
Proof.
  intros int_of_str args c n old w Hc Hne Hi Hn Hl.
  assert (Hset : set_ends int_of_str args w
                 = Ret ([("ok", JBool true); ("num_ends", JInt n)], 200)
                       (set_NUM_ENDS n w)).
  { unfold set_ends. rewrite Hc.
    destruct c as [|a c']; [congruence|].
    unfold try_except, bind at 1, lift. rewrite Hi. unfold ret at 1.
    destruct (n <? 1) eqn:E; [apply Z.ltb_lt in E; lia|].
    destruct w as [t l tot ne lg msg st off pa pe]. simpl in *. subst l.
    reflexivity. }
  assert (Hl' : state_lock (set_NUM_ENDS n w) = false) by exact Hl.
  do 2 eexists. split.
  - unfold bind at 1. rewrite Hset. apply (sync_boxes_spec old _ Hl').
  - split; [|reflexivity].
    change (NUM_ENDS (set_NUM_ENDS n w)) with n.
    destruct (Z.of_nat (List.length old) =? n) eqn:E; simpl.
    + apply Z.eqb_eq in E. exact E.
    + rewrite row_length. lia.
Qed.

End LoopFacts.

(** ** Shape of the clock text *)

Lemma string_length_app (a b : string) :
  String.length (a ++ b) = (String.length a + String.length b)%nat.
Proof.
  induction a as [|c a IH]; cbn [append String.length]; [reflexivity|].
  rewrite IH. reflexivity.
Qed.

Lemma format_02d_length (n : Z) :
  0 <= n < 100 -> String.length (format_02d n) = 2%nat.
Proof.
  intro Hn. unfold format_02d, str_of_int.
  destruct (n <? 0) eqn:E0; [apply Z.ltb_lt in E0; lia|].
  cbn [digits_of].
  destruct (n <? 10) eqn:E1.
  - reflexivity.
  - apply Z.ltb_ge in E1.
    assert (Hlog : 3 <= Z.log2 n).
    { apply Z.log2_le_pow2; [lia|]. change (2 ^ 3) with 8. lia. }
    destruct (Z.to_nat (Z.log2 n)) as [|fuel] eqn:Ef; [lia|].
    cbn [digits_of].
    assert (Hq : n / 10 < 10) by (apply Z.div_lt_upper_bound; lia).
    destruct (n / 10 <? 10) eqn:E2; [reflexivity|].
    apply Z.ltb_ge in E2. lia.
Qed.

(** The clock text is [MM:SS] below one hour and [H:MM:SS] from one hour
    on; minutes and seconds always take two characters each. *)
Theorem clock_text_fields : forall seconds : Z,
  let parts := split_colon (format_seconds_clock seconds) in
  (seconds < 3600 ->
     exists mm ss, parts = [mm; ss] /\
       String.length mm = 2%nat /\ String.length ss = 2%nat /\
       String.length (format_seconds_clock seconds) = 5%nat) /\
  (3600 <= seconds ->
     exists h mm ss, parts = [h; mm; ss] /\ h <> EmptyString /\
       String.length mm = 2%nat /\ String.length ss = 2%nat).
Proof.
  intros seconds parts. unfold parts, format_seconds_clock.
  set (sec := if seconds <? 0 then 0 else seconds).
  assert (Hsec : sec = Z.max 0 seconds /\ 0 <= sec).
  { unfold sec. destruct (seconds <? 0) eqn:E;
      [apply Z.ltb_lt in E | apply Z.ltb_ge in E]; lia. }
  destruct Hsec as [Hmax Hpos].
  assert (Hh : 0 <= sec / 3600) by (apply Z.div_pos; lia).
  assert (Hm : 0 <= (sec mod 3600) / 60 < 100).
  { pose proof (Z.mod_pos_bound sec 3600).
    split; [apply Z.div_pos; lia | apply Z.div_lt_upper_bound; lia]. }
  assert (Hs : 0 <= sec mod 60 < 100)
    by (pose proof (Z.mod_pos_bound sec 60); lia).
  destruct (str_of_int_spec _ Hh) as [Hne [Php _]].
  destruct (format_02d_spec _ (proj1 Hm)) as [_ [Pmp _]].
  destruct (format_02d_spec _ (proj1 Hs)) as [_ [Psp _]].
  pose proof (format_02d_length _ Hm) as Lm.
  pose proof (format_02d_length _ Hs) as Ls.
  split; intro Hrange.
  - assert (E : (0 <? sec / 3600) = false).
    { apply Z.ltb_ge. assert (sec / 3600 < 1)
        by (apply Z.div_lt_upper_bound; lia). lia. }
    rewrite E.
    rewrite (split_colon_app _ _ Pmp), (split_colon_plain _ Psp).
    do 2 eexists. split; [reflexivity|]. split; [exact Lm|].
    split; [exact Ls|].
    rewrite string_length_app, Lm. cbn [append String.length].
    rewrite Ls. reflexivity.
  - assert (E : (0 <? sec / 3600) = true).
    { apply Z.ltb_lt. assert (1 <= sec / 3600)
        by (apply Z.div_le_lower_bound; lia). lia. }
    rewrite E.
    rewrite (split_colon_app _ _ Php), (split_colon_app _ _ Pmp),
      (split_colon_plain _ Psp).
    do 3 eexists. split; [reflexivity|]. split; [exact Hne|].
    split; [exact Lm | exact Ls].
Qed.

(** ** Wrapped text *)

Lemma string_app_assoc (a b c : string) : (a ++ b) ++ c = a ++ (b ++ c).
Proof.
  induction a as [|x a IH]; cbn [append]; [reflexivity|].
  rewrite IH. reflexivity.
Qed.

Lemma string_app_empty_r (a : string) : a ++ EmptyString = a.
Proof.
  induction a as [|x a IH]; cbn [append]; [reflexivity|].
  rewrite IH. reflexivity.
Qed.

Lemma list_ascii_of_string_app (a b : string) :
  list_ascii_of_string (a ++ b)
  = (list_ascii_of_string a ++ list_ascii_of_string b)%list.
Proof.
  induction a as [|x a IH]; cbn [append list_ascii_of_string app];
    [reflexivity|].
  rewrite IH. reflexivity.
Qed.

Lemma string_of_list_ascii_app (l1 l2 : list ascii) :
  string_of_list_ascii (l1 ++ l2)
  = string_of_list_ascii l1 ++ string_of_list_ascii l2.
Proof.
  induction l1 as [|x l1 IH]; cbn [app string_of_list_ascii append];
    [reflexivity|].
  rewrite IH. reflexivity.
Qed.

Lemma string_rev_app (a b : string) :
  string_rev (a ++ b) = string_rev b ++ string_rev a.
Proof.
  unfold string_rev.
  rewrite list_ascii_of_string_app, rev_app_distr.
  apply string_of_list_ascii_app.
Qed.

Lemma headed_lstrip (s : string) : headed s -> lstrip s = s.
Proof.
  destruct s as [|c s]; cbn [headed lstrip]; [contradiction|].
  intros ->. reflexivity.
Qed.

Lemma headed_app (a b : string) : headed a -> headed (a ++ b).
Proof.
  destruct a as [|c a]; cbn [headed append]; intro H;
    [contradiction | exact H].
Qed.

Lemma headed_nonempty (s : string) : headed s -> s <> EmptyString.
Proof. destruct s; cbn [headed]; [contradiction | discriminate]. Qed.

Lemma tight_strip (s : string) : tight s -> strip s = s.
Proof.
  intros [H1 H2]. unfold strip.
  rewrite (headed_lstrip s H1), (headed_lstrip _ H2).
  apply string_rev_involutive.
Qed.

Lemma string_rev_nonempty (s : string) :
  s <> EmptyString -> string_rev s <> EmptyString.
Proof.
  intros H E. apply H. rewrite <- (string_rev_involutive s), E. reflexivity.
Qed.

Lemma word_headed (w : string) : is_word w -> headed w.
Proof.
  intros [Hne Hns]. destruct w as [|c w]; [congruence|].
  cbn [no_space headed] in *. tauto.
Qed.

Lemma word_rev (w : string) : is_word w -> is_word (string_rev w).
Proof.
  intros [Hne Hns]. split;
    [apply string_rev_nonempty; exact Hne | apply no_space_rev; exact Hns].
Qed.

Lemma word_tight (w : string) : is_word w -> tight w.
Proof.
  intro H. split; [apply word_headed; exact H|].
  apply word_headed, word_rev, H.
Qed.

(** [(line + " " + w).strip()] for a word [w] and a line that is empty or
    has no blank at either end. *)
Lemma trial_line (line w : string) :
  is_word w -> line = EmptyString \/ tight line ->
  let trial := strip (line ++ " " ++ w) in
  trial = match line with
          | EmptyString => w
          | _ => line ++ " " ++ w
          end /\ tight trial.
Proof.
  intros Hw [-> | [Hh Hr]]; cbn zeta.
  - assert (E : strip (EmptyString ++ " " ++ w) = w).
    { cbn [append]. unfold strip. cbn [lstrip].
      change (is_space " ") with true. cbv iota.
      destruct (word_tight w Hw) as [H1 H2].
      rewrite (headed_lstrip w H1), (headed_lstrip _ H2).
      apply string_rev_involutive. }
    rewrite E. split; [reflexivity | apply word_tight; exact Hw].
  - assert (Ht : tight (line ++ " " ++ w)).
    { split; [apply headed_app; exact Hh|].
      rewrite string_rev_app, string_rev_app.
      apply headed_app, headed_app, word_headed, word_rev, Hw. }
    rewrite (tight_strip _ Ht).
    split; [|exact Ht].
    destruct line; [destruct Hh | reflexivity].
Qed.

Lemma split_ws_no_space (u : string) :
  forall cur rest : string,
    no_space u -> split_ws cur (u ++ rest) = split_ws (cur ++ u) rest.
Proof.
  induction u as [|c u IH]; intros cur rest Hu; cbn [append].
  - rewrite string_app_empty_r. reflexivity.
  - destruct Hu as [Hc Hu]. cbn [split_ws]. rewrite Hc.
    rewrite (IH _ rest Hu), string_app_assoc. reflexivity.
Qed.

Lemma split_ws_word (w : string) : is_word w -> py_split w = [w].
Proof.
  intros [Hne Hns]. unfold py_split.
  rewrite <- (string_app_empty_r w) at 1.
  rewrite (split_ws_no_space w EmptyString EmptyString Hns).
  cbn [append split_ws]. destruct w; [congruence | reflexivity].
Qed.

Lemma split_ws_snoc_word (w : string) :
  is_word w ->
  forall a cur : string,
    split_ws cur (a ++ " " ++ w) = (split_ws cur a ++ [w])%list.
Proof.
  intros Hw a. induction a as [|c a IH]; intro cur.
  - cbn [append split_ws]. change (is_space " ") with true. cbv iota.
    fold (py_split w). rewrite (split_ws_word w Hw).
    destruct cur; reflexivity.
  - cbn [append split_ws]. destruct (is_space c).
    + destruct cur; rewrite IH; reflexivity.
    + apply IH.
Qed.

Lemma split_ws_words (s : string) :
  forall cur : string, no_space cur -> Forall is_word (split_ws cur s).
Proof.
  induction s as [|c s IH]; intros cur Hcur; cbn [split_ws].
  - destruct cur; constructor; [|constructor].
    split; [discriminate | exact Hcur].
  - destruct (is_space c) eqn:E.
    + destruct cur; [apply IH; exact I|].
      constructor; [split; [discriminate | exact Hcur]|].
      apply IH. exact I.
    + apply IH. apply no_space_app; [exact Hcur|].
      cbn [no_space]. auto.
Qed.

Lemma py_split_words (text : string) : Forall is_word (py_split text).
Proof. apply split_ws_words. exact I. Qed.

Lemma py_split_trial (line w : string) :
  is_word w -> line = EmptyString \/ tight line ->
  py_split (strip (line ++ " " ++ w)) = (py_split line ++ [w])%list.
Proof.
  intros Hw Hl. destruct (trial_line line w Hw Hl) as [E _].
  cbn zeta in E. rewrite E. destruct line as [|c line].
  - rewrite (split_ws_word w Hw). reflexivity.
  - apply (split_ws_snoc_word w Hw).
Qed.

Section WrapFacts.

Variable text_width : string -> Z.
Variable linesize : Z.
Variable rect : Rect.
Variable line_height : Q.

Local Abbreviation step := (Qtrunc (inject_Z linesize * line_height)).
Local Abbreviation wrap ws st :=
  (wrap_words text_width linesize rect line_height ws st).
Local Abbreviation lines_of blits :=
  (flat_map py_split (map fst blits)).

Lemma wrap_words_inv :
  forall (words : list string) (st : WrapState),
    Forall is_word words ->
    wrap_line st = EmptyString \/ tight (wrap_line st) ->
    (wrap_line (wrap words st) = EmptyString
     \/ tight (wrap_line (wrap words st))) /\
    (words <> [] -> wrap_line (wrap words st) <> EmptyString) /\
    (lines_of (wrap_blits (wrap words st))
     ++ py_split (wrap_line (wrap words st))
     = lines_of (wrap_blits st) ++ py_split (wrap_line st) ++ words)%list /\
    (wrap_line (wrap words st) = wrap_line st
     \/ In (wrap_line (wrap words st)) words
     \/ text_width (wrap_line (wrap words st)) <= rect_width rect) /\
    exists new : list (string * (Z * Z)),
      wrap_blits (wrap words st) = (wrap_blits st ++ new)%list /\
      wrap_y (wrap words st) = wrap_y st + Z.of_nat (List.length new) * step /\
      (forall i l p, nth_error new i = Some (l, p) ->
         p = (rect_left rect, wrap_y st + Z.of_nat i * step)) /\
      (forall l p, In (l, p) new ->
         l = wrap_line st \/ In l words
         \/ text_width l <= rect_width rect).
Proof.
  induction words as [|w rest IH]; intros st Hws Hline.
  - cbn [wrap_words]. split; [exact Hline|]. split; [congruence|].
    split; [rewrite app_nil_r; reflexivity|]. split; [left; reflexivity|].
    exists []. split; [rewrite app_nil_r; reflexivity|].
    split; [simpl; lia|]. split.
    + intros [|i] l p H; discriminate.
    + intros l p [].
  - inversion Hws as [|w' rest' Hw Hrest]; subst w' rest'.
    destruct (trial_line (wrap_line st) w Hw Hline) as [Etrial Htight].
    cbn zeta in Etrial, Htight.
    pose proof (py_split_trial (wrap_line st) w Hw Hline) as Hsplit.
    cbn [wrap_words].
    destruct (text_width (strip (wrap_line st ++ " " ++ w))
              <=? rect_width rect) eqn:Efit.
    + apply Z.leb_le in Efit.
      set (st1 := mkWrap (wrap_y st) (strip (wrap_line st ++ " " ++ w))
                         (wrap_used st) (wrap_blits st)).
      destruct (IH st1 Hrest (or_intror Htight))
        as [H1 [H2 [H3 [H4 [new [N1 [N2 [N3 N4]]]]]]]].
      assert (Hne1 : wrap_line st1 <> EmptyString)
        by (apply headed_nonempty; apply Htight).
      split; [exact H1|]. split.
      { intros _. destruct rest as [|r rest'];
          [exact Hne1 | apply H2; discriminate]. }
      split.
      { rewrite H3. cbn [wrap_blits wrap_line st1]. rewrite Hsplit.
        rewrite <- !app_assoc. reflexivity. }
      split.
      { destruct H4 as [H4 | [H4 | H4]].
        - right. right. rewrite H4. exact Efit.
        - right. left. right. exact H4.
        - right. right. exact H4. }
      exists new. split; [exact N1|]. split; [exact N2|].
      split; [exact N3|].
      intros l p Hin. destruct (N4 l p Hin) as [E | [E | E]].
      * right. right. rewrite E. exact Efit.
      * right. left. right. exact E.
      * right. right. exact E.
    + set (pos := (rect_left rect, wrap_y st)).
      set (st1 := mkWrap (wrap_y st + step) w
                         (wrap_y st + step - rect_top rect)
                         (wrap_blits st ++ [(wrap_line st, pos)])%list).
      destruct (IH st1 Hrest (or_intror (word_tight w Hw)))
        as [H1 [H2 [H3 [H4 [new [N1 [N2 [N3 N4]]]]]]]].
      assert (Hne1 : wrap_line st1 <> EmptyString) by apply Hw.
      split; [exact H1|]. split.
      { intros _. destruct rest as [|r rest'];
          [exact Hne1 | apply H2; discriminate]. }
      split.
      { rewrite H3. cbn [wrap_blits wrap_line st1].
        rewrite map_app, flat_map_app. cbn [map flat_map fst].
        rewrite (split_ws_word w Hw), app_nil_r.
        rewrite <- !app_assoc. reflexivity. }
      split.
      { destruct H4 as [H4 | [H4 | H4]].
        - right. left. left. symmetry. exact H4.
        - right. left. right. exact H4.
        - right. right. exact H4. }
      exists ((wrap_line st, pos) :: new). split.
      { rewrite N1. cbn [wrap_blits st1]. rewrite <- app_assoc.
        reflexivity. }
      split.
      { rewrite N2. cbn [wrap_y st1 List.length].
        rewrite Nat2Z.inj_succ. lia. }
      split.
      { intros [|i] l p Hnth.
        - simpl in Hnth. inversion Hnth. unfold pos. f_equal. simpl. lia.
        - simpl in Hnth. rewrite (N3 i l p Hnth). cbn [wrap_y st1].
          f_equal. rewrite Nat2Z.inj_succ. lia. }
      intros l p [Hin | Hin].
      * inversion Hin. left. reflexivity.
      * destruct (N4 l p Hin) as [E | [E | E]].
        -- right. left. left. symmetry. exact E.
        -- right. left. right. exact E.
        -- right. right. exact E.
Qed.

Local Abbreviation draw text :=
  (draw_wrapped_text text_width linesize text rect line_height).
Local Abbreviation start :=
  (mkWrap (rect_top rect) EmptyString 0 []).

Lemma draw_inv (text : string) :
  exists (line : string) (y : Z) (new : list (string * (Z * Z))),
    let blits := match line with
                 | EmptyString => new
                 | _ => (new ++ [(line, (rect_left rect, y))])%list
                 end in
    snd (draw text) = blits /\
    fst (draw text)
    = match line with
      | EmptyString => 0
      | _ => y - rect_top rect + linesize
      end /\
    (py_split text = [] -> line = EmptyString /\ new = []) /\
    (py_split text <> [] -> line <> EmptyString) /\
    (lines_of new ++ py_split line = py_split text)%list /\
    (line = EmptyString \/ In line (py_split text)
     \/ text_width line <= rect_width rect) /\
    y = rect_top rect + Z.of_nat (List.length new) * step /\
    (forall i l p, nth_error new i = Some (l, p) ->
       p = (rect_left rect, rect_top rect + Z.of_nat i * step)) /\
    (forall l p, In (l, p) new ->
       l = EmptyString \/ In l (py_split text)
       \/ text_width l <= rect_width rect).
Proof.
  destruct (wrap_words_inv (py_split text) start (py_split_words text)
              (or_introl eq_refl))
    as [_ [H2 [H3 [H4 [new [N1 [N2 [N3 N4]]]]]]]].
  cbn [wrap_blits wrap_line wrap_y app] in *.
  exists (wrap_line (wrap (py_split text) start)),
         (wrap_y (wrap (py_split text) start)), new.
  cbn zeta. unfold draw_wrapped_text.
  split; [destruct (wrap_line (wrap (py_split text) start));
          cbn [snd]; rewrite N1; reflexivity|].
  split.
  { destruct (wrap_line (wrap (py_split text) start)) eqn:E;
      cbn [fst]; [|reflexivity].
    destruct (py_split text) as [|w ws] eqn:Ew.
    - reflexivity.
    - exfalso. apply H2; [discriminate | reflexivity]. }
  split.
  { intro Ew. rewrite Ew in *. cbn [wrap_words] in *.
    split; [reflexivity|]. symmetry. exact N1. }
  split; [exact H2|]. split; [rewrite <- N1; exact H3|].
  split; [exact H4|]. split; [exact N2|]. split; [exact N3 | exact N4].
Qed.

(** Wrapping loses and reorders no word: the words of the drawn lines, read
    top to bottom, are the words of the text. *)
Theorem wrapped_text_keeps_words : forall text : string,
  flat_map py_split (map fst (snd (draw text))) = py_split text.
Proof.
  intro text.
  destruct (draw_inv text)
    as [line [y [new [Hb [_ [_ [_ [Hw _]]]]]]]].
  cbn zeta in Hb. rewrite Hb. destruct line as [|c line].
  - cbn [py_split split_ws] in Hw. rewrite app_nil_r in Hw. exact Hw.
  - rewrite map_app, flat_map_app. cbn [map flat_map fst].
    rewrite app_nil_r. exact Hw.
Qed.

(** A drawn line is no wider than the rectangle unless it is a single word
    of the text (a word too wide for the rectangle gets a line of its own)
    or the empty line. *)
Theorem wrapped_lines_fit : forall (text line : string) (pos : Z * Z),
  In (line, pos) (snd (draw text)) ->
  line = EmptyString \/ In line (py_split text)
  \/ text_width line <= rect_width rect.
Proof.
  intros text line pos Hin.
  destruct (draw_inv text)
    as [last [y [new [Hb [_ [_ [_ [_ [Hlast [_ [_ Hnew]]]]]]]]]]].
  cbn zeta in Hb. rewrite Hb in Hin. destruct last as [|c last].
  - apply (Hnew line pos Hin).
  - apply in_app_or in Hin. destruct Hin as [Hin | [Hin | []]].
    + apply (Hnew line pos Hin).
    + inversion Hin; subst. exact Hlast.
Qed.

(** Lines are drawn at the left edge, one line step apart from the top of
    the rectangle.  A text without words draws nothing and uses height 0;
    otherwise the height used is one line step per line before the last,
    plus the font's line size. *)
Theorem wrapped_text_layout : forall text : string,
  let blits := snd (draw text) in
  let used := fst (draw text) in
  (forall i line pos, nth_error blits i = Some (line, pos) ->
     pos = (rect_left rect, rect_top rect + Z.of_nat i * step)) /\
  (py_split text = [] -> blits = [] /\ used = 0) /\
  (py_split text <> [] ->
     blits <> [] /\
     used = (Z.of_nat (List.length blits) - 1) * step + linesize).
Proof.
  intros text blits used. unfold blits, used.
  destruct (draw_inv text)
    as [last [y [new [Hb [Hu [He [Hne [_ [_ [Hy [Hpos _]]]]]]]]]]].
  cbn zeta in Hb. rewrite Hb, Hu. split; [|split].
  - intros i line pos Hnth. destruct last as [|c last].
    + apply (Hpos i line pos Hnth).
    + destruct (Nat.lt_ge_cases i (List.length new)) as [Hlt | Hge].
      * rewrite nth_error_app1 in Hnth by exact Hlt.
        apply (Hpos i line pos Hnth).
      * rewrite nth_error_app2 in Hnth by exact Hge.
        destruct (i - List.length new)%nat as [|k] eqn:Ek.
        -- simpl in Hnth. inversion Hnth. subst y. f_equal.
           assert (i = List.length new) by lia. subst i. reflexivity.
        -- simpl in Hnth. destruct k; discriminate.
  - intro Ew. destruct (He Ew) as [-> ->]. split; reflexivity.
  - intro Ew. pose proof (Hne Ew) as Hl. destruct last as [|c last];
      [congruence|]. split.
    + intro E. apply app_eq_nil in E. destruct E as [_ E]. discriminate.
    + rewrite length_app. cbn [List.length]. subst y. lia.
Qed.

(** When the first word alone is wider than the rectangle, the first line
    drawn, at the top left of the rectangle, is the empty line. *)
Theorem wide_first_word_blank_line :
  forall (text w : string) (rest : list string),
    py_split text = w :: rest ->
    rect_width rect < text_width w ->
    exists more : list (string * (Z * Z)),
      snd (draw text)
      = (EmptyString, (rect_left rect, rect_top rect)) :: more.
Proof.
  intros text w rest Ew Hwide.
  assert (Hw : is_word w).
  { pose proof (py_split_words text) as H. rewrite Ew in H.
    inversion H; assumption. }
  destruct (trial_line EmptyString w Hw (or_introl eq_refl)) as [E _].
  cbn zeta in E.
  unfold draw_wrapped_text. rewrite Ew. cbn [wrap_words wrap_line].
  rewrite E.
  destruct (text_width w <=? rect_width rect) eqn:Efit;
    [apply Z.leb_le in Efit; lia|].
  cbn [wrap_blits wrap_y app].
  set (st1 := mkWrap _ w _ _).
  destruct (wrap_words_inv rest st1) as [_ [_ [_ [_ [new [N1 _]]]]]].
  { pose proof (py_split_words text) as H. rewrite Ew in H.
    inversion H; assumption. }
  { right. apply word_tight. exact Hw. }
  destruct (wrap_line (wrap rest st1)); cbn [snd]; rewrite N1;
    cbn [wrap_blits st1 app]; eexists; reflexivity.
Qed.

End WrapFacts.

(** ** The sample builtins read decimal digits *)

Lemma digit_val_char (c : ascii) (d : Z) :
  digit_val c = Some d ->
  is_space c = false /\ Ascii.eqb c "-"%char = false.
Proof.
  destruct c as [b0 b1 b2 b3 b4 b5 b6 b7].
  destruct b0, b1, b2, b3, b4, b5, b6, b7; intro H;
    vm_compute in H; try discriminate H; split; reflexivity.
Qed.

Lemma digits_val_no_space (s : string) :
  forall (a n : Z), digits_val a s = Some n -> no_space s.
Proof.
  induction s as [|c s IH]; intros a n H; cbn [no_space]; [exact I|].
  cbn [digits_val] in H. destruct (digit_val c) as [d|] eqn:Hd;
    [|discriminate].
  split; [apply (digit_val_char c d Hd) | apply (IH _ _ H)].
Qed.

Lemma dec_int_reads_decimal : reads_decimal dec_int.
Proof.
  intros s n Hne Hv. unfold dec_int.
  rewrite (strip_no_space s (digits_val_no_space s 0 n Hv)).
  destruct s as [|c r]; [congruence|].
  assert (Hc : Ascii.eqb c "-"%char = false).
  { cbn [digits_val] in Hv. destruct (digit_val c) as [d|] eqn:Hd;
      [|discriminate]. apply (digit_val_char c d Hd). }
  destruct c as [b0 b1 b2 b3 b4 b5 b6 b7].
  destruct b0, b1, b2, b3, b4, b5, b6, b7;
    try discriminate Hc; cbv beta iota; rewrite Hv; reflexivity.
Qed.

(** ** The further theorems on concrete inputs *)

Lemma format_parse_roundtrip_witness :
  reads_decimal dec_int /\
  parse_hms_to_seconds dec_int (format_seconds_clock 7265)
  = inr (Z.max 0 7265).
Proof.
  split; [exact dec_int_reads_decimal|].
  exact (format_parse_roundtrip dec_int dec_int_reads_decimal 7265).
Defined.

Lemma reachable_overrun_world : reachable dec_float dec_int overrun_world.
Proof.
  apply (reach_elapse dec_float dec_int
           (initial 0 7200 8 EmptyString EmptyString) 7200%Q).
  - apply reach_initial.
  - unfold Qle; simpl; lia.
  - reflexivity.
Qed.

Lemma reachable_pause_instant_witness :
  reachable dec_float dec_int overrun_world /\
  state_lock overrun_world = false /\
  (_paused overrun_world = true
   <-> exists p, _pause_epoch overrun_world = Some p) /\
  (forall p, _pause_epoch overrun_world = Some p ->
             (p <= wall_clock overrun_world)%Q).
Proof.
  split; [exact reachable_overrun_world|].
  exact (reachable_pause_instant dec_float dec_int overrun_world
           reachable_overrun_world).
Defined.

Lemma reset_reads_zero_witness :
  reachable dec_float dec_int overrun_world /\
  exists w' : World,
    reset_timer overrun_world = Ret tt w' /\
    _paused w' = _paused overrun_world /\
    now_elapsed w' = Ret 0%Q w'.
Proof.
  split; [exact reachable_overrun_world|].
  exact (reset_reads_zero dec_float dec_int overrun_world
           reachable_overrun_world).
Defined.

Lemma wf_running_world : wf running_world.
Proof. split; simpl; [reflexivity | discriminate]. Qed.



Lemma set_ends_stores_witness :
  args_get "count" count_5 = Some "5" /\ "5" <> EmptyString /\
  dec_int "5" = inr 5 /\ 1 <= 5 /\ state_lock running_world = false /\
  set_ends dec_int count_5 running_world
  = Ret ([("ok", JBool true); ("num_ends", JInt 5)], 200)
        (set_NUM_ENDS 5 running_world) /\
  reading (set_NUM_ENDS 5 running_world) = reading running_world.
Proof.
  assert (Hc : args_get "count" count_5 = Some "5") by reflexivity.
  assert (Hne : "5" <> EmptyString) by discriminate.
  assert (Hi : dec_int "5" = inr 5) by reflexivity.
  assert (Hn : 1 <= 5) by lia.
  assert (Hl : state_lock running_world = false) by reflexivity.
  split; [exact Hc|]. split; [exact Hne|]. split; [exact Hi|].
  split; [exact Hn|]. split; [exact Hl|].
  exact (set_ends_stores dec_int count_5 "5" 5 running_world
           Hc Hne Hi Hn Hl).
Defined.

Lemma set_ends_resizes_row_witness :
  args_get "count" count_5 = Some "5" /\ "5" <> EmptyString /\
  dec_int "5" = inr 5 /\ 1 <= 5 /\ state_lock running_world = false /\
  exists (boxes : list Rect) (w' : World),
    (set_ends dec_int count_5 ;;
     sync_boxes 1000 10 300 100 500 20 sample_rects) running_world
    = Ret boxes w' /\
    Z.of_nat (List.length boxes) = 5 /\ NUM_ENDS w' = 5.
Proof.
  assert (Hc : args_get "count" count_5 = Some "5") by reflexivity.
  assert (Hne : "5" <> EmptyString) by discriminate.
  assert (Hi : dec_int "5" = inr 5) by reflexivity.
  assert (Hn : 1 <= 5) by lia.
  assert (Hl : state_lock running_world = false) by reflexivity.
  split; [exact Hc|]. split; [exact Hne|]. split; [exact Hi|].
  split; [exact Hn|]. split; [exact Hl|].
  exact (set_ends_resizes_row 1000 10 300 100 500 20 dec_int count_5 "5" 5
           sample_rects running_world Hc Hne Hi Hn Hl).
Defined.

Lemma sample_rects_wide : forall r, In r sample_rects -> 6 <= rect_width r.
Proof.
  intros r [<- | [<- | [<- | []]]]; simpl; lia.
Qed.

Lemma fill_widths_bounded_witness :
  Z.abs 7200 < float_int_limit /\
  (forall r, In r sample_rects -> 6 <= rect_width r) /\
  exists f : Frame,
    boxes_row 1000 7200 sample_rects = inr f /\
    (0 <= partial f < 1)%Q /\
    Forall2 (fun fw r => 0 <= fw <= rect_width r - 6) (fill_ws f)
            sample_rects.
Proof.
  assert (Htot : Z.abs 7200 < float_int_limit) by (vm_compute; reflexivity).
  split; [exact Htot|]. split; [exact sample_rects_wide|].
  exact (fill_widths_bounded 1000 7200 sample_rects Htot sample_rects_wide).
Defined.


Lemma overrun_fills_all_witness :
  0 < 7200 /\ (inject_Z 7200 <= 9000)%Q /\ sample_rects <> [] /\
  let f := draw_boxes 9000 7200 sample_rects in
  let N := Z.of_nat (List.length sample_rects) in
  frac f = 1%Q /\
  full_boxes f = N /\
  (partial f == 0)%Q /\
  fill_ws f = map (fun r => rect_width r - 6) sample_rects /\
  current_idx f = N - 1 /\
  exists r, current_rect f = inr r.
Proof.
  assert (H0 : 0 < 7200) by lia.
  assert (H1 : (inject_Z 7200 <= 9000)%Q) by (unfold Qle; simpl; lia).
  assert (H2 : sample_rects <> []) by discriminate.
  split; [exact H0|]. split; [exact H1|]. split; [exact H2|].
  exact (overrun_fills_all 9000 7200 sample_rects H0 H1 H2).
Defined.

Lemma boxes_fit_grid_witness :
  0 <= 10 /\ (Z.max 1 8 + 1) * 10 <= 1000 /\
  Z.of_nat (List.length (recompute_boxes 1000 10 300 100 500 20 8))
  = Z.max 1 8 /\
  forall r, In r (recompute_boxes 1000 10 300 100 500 20 8) ->
    0 <= rect_width r /\
    20 + 10 <= rect_left r /\
    rect_left r + rect_width r + 10 <= 20 + 1000 /\
    100 <= rect_top r /\
    rect_top r + rect_height r <= 500.
Proof.
  assert (H0 : 0 <= 10) by lia.
  assert (H1 : (Z.max 1 8 + 1) * 10 <= 1000) by (simpl; lia).
  split; [exact H0|]. split; [exact H1|].
  exact (boxes_fit_grid 1000 10 300 100 500 20 8 H0 H1).
Defined.

Lemma boxes_left_to_right_witness :
  0 <= 10 /\ (Z.max 1 8 + 1) * 10 <= 1000 /\ (1 < 3)%nat /\
  nth_error (recompute_boxes 1000 10 300 100 500 20 8) 1
  = Some (mkRect 153 150 113 300) /\
  nth_error (recompute_boxes 1000 10 300 100 500 20 8) 3
  = Some (mkRect 399 150 113 300) /\
  rect_left (mkRect 153 150 113 300) + rect_width (mkRect 153 150 113 300)
  + 10 <= rect_left (mkRect 399 150 113 300).
Proof.
  assert (H0 : 0 <= 10) by lia.
  assert (H1 : (Z.max 1 8 + 1) * 10 <= 1000) by (simpl; lia).
  assert (H2 : (1 < 3)%nat) by lia.
  assert (H3 : nth_error (recompute_boxes 1000 10 300 100 500 20 8) 1
               = Some (mkRect 153 150 113 300)) by reflexivity.
  assert (H4 : nth_error (recompute_boxes 1000 10 300 100 500 20 8) 3
               = Some (mkRect 399 150 113 300)) by reflexivity.
  split; [exact H0|]. split; [exact H1|]. split; [exact H2|].
  split; [exact H3|]. split; [exact H4|].
  exact (boxes_left_to_right 1000 10 300 100 500 20 8 1 3 _ _
           H0 H1 H2 H3 H4).
Defined.

Lemma loop_pass_completes_witness :
  wf running_world /\ sample_rects <> [] /\
  Z.abs (TOTAL_SECONDS running_world) < float_int_limit /\
  exists (boxes : list Rect) (text : string) (f : Frame),
    loop_pass 1000 10 300 100 500 20 sample_rects running_world
    = Ret (boxes, text, f) running_world /\
    Z.of_nat (List.length boxes) = Z.max 1 (NUM_ENDS running_world) /\
    text = (let shown :=
              format_seconds_clock
                (Z.min (Qtrunc (reading running_world))
                       (TOTAL_SECONDS running_world)) in
            if _paused running_world then shown ++ "  (paused)" else shown) /\
    boxes_row (reading running_world) (TOTAL_SECONDS running_world) boxes
    = inr f /\
    f = draw_boxes (reading running_world) (TOTAL_SECONDS running_world)
                   boxes /\
    exists r : Rect, current_rect f = inr r.
Proof.
  assert (H2 : sample_rects <> []) by discriminate.
  assert (H3 : Z.abs (TOTAL_SECONDS running_world) < float_int_limit)
    by (vm_compute; reflexivity).
  split; [exact wf_running_world|]. split; [exact H2|]. split; [exact H3|].
  exact (loop_pass_completes 1000 10 300 100 500 20 sample_rects
           running_world wf_running_world H2 H3).
Defined.

Lemma wide_first_word_blank_line_witness :
  py_split "extraordinary pace" = ["extraordinary"; "pace"] /\
  rect_width (mkRect 0 0 100 50) < sample_width "extraordinary" /\
  exists more : list (string * (Z * Z)),
    snd (draw_wrapped_text sample_width 20 "extraordinary pace"
           (mkRect 0 0 100 50) (13 # 10))
    = (EmptyString, (rect_left (mkRect 0 0 100 50),
                     rect_top (mkRect 0 0 100 50))) :: more.
Proof.
  assert (H0 : py_split "extraordinary pace" = ["extraordinary"; "pace"])
    by reflexivity.
  assert (H1 : rect_width (mkRect 0 0 100 50) < sample_width "extraordinary")
    by (vm_compute; reflexivity).
  split; [exact H0|]. split; [exact H1|].
  exact (wide_first_word_blank_line sample_width 20 (mkRect 0 0 100 50)
           (13 # 10) "extraordinary pace" "extraordinary" ["pace"] H0 H1).
Defined.


Lemma set_elapsed_running_roundtrip_witness :
  wf running_world /\ _paused running_world = false /\
  (0 <= 50)%Q /\ (0 <= 2)%Q /\
  exists v, returns (set_elapsed 50 ;; elapse 2 ;; now_elapsed)
                    running_world v /\
            (v == 50 + 2)%Q.
Proof.
  assert (Hpa : _paused running_world = false) by reflexivity.
  assert (Hx : (0 <= 50)%Q) by (unfold Qle; simpl; lia).
  assert (Hd : (0 <= 2)%Q) by (unfold Qle; simpl; lia).
  split; [exact wf_running_world|]. split; [exact Hpa|].
  split; [exact Hx|]. split; [exact Hd|].
  exact (set_elapsed_running_roundtrip running_world 50 2
           wf_running_world Hpa Hx Hd).
Defined.

Lemma add_time_running_witness :
  wf running_world /\ _paused running_world = false /\
  exists resp w', add_time running_world = Ret resp w' /\ wf w' /\
                  (reading w' == reading running_world + 60)%Q.
Proof.
  assert (Hpa : _paused running_world = false) by reflexivity.
  split; [exact wf_running_world|]. split; [exact Hpa|].
  exact (add_time_running running_world wf_running_world Hpa).
Defined.

Lemma subtract_time_running_witness :
  wf running_world /\ _paused running_world = false /\
  exists resp w', subtract_time running_world = Ret resp w' /\ wf w' /\
                  (reading w' == py_max 0 (reading running_world - 60))%Q.
Proof.
  assert (Hpa : _paused running_world = false) by reflexivity.
  split; [exact wf_running_world|]. split; [exact Hpa|].
  exact (subtract_time_running running_world wf_running_world Hpa).
Defined.

(** ** Shrink-to-fit loop *)

Section ShrinkFacts.

Variable font_width : Z -> string -> Z.
Variable font_linesize : Z -> Z.
Variable text : string.
Variable inner : Rect.

Local Abbreviation passes fuel size :=
  (shrink_passes font_width font_linesize fuel text inner size).
Local Abbreviation used_at size :=
  (fst (draw_wrapped_text (font_width size) (font_linesize size) text
          (text_rect inner) (32 # 25))).

(** More fuel than the size changes nothing: the loop has ended by then. *)
Lemma shrink_passes_fuel :
  forall (fuel extra : nat) (size : Z),
    size <= Z.of_nat fuel + 17 ->
    passes (fuel + extra)%nat size = passes fuel size.
Proof.
  induction fuel as [|fuel IH]; intros extra size Hsize.
  - cbn [Nat.add shrink_passes]. destruct extra; [reflexivity|].
    cbn [shrink_passes].
    destruct (18 <=? size) eqn:E; [apply Z.leb_le in E; lia | reflexivity].
  - cbn [Nat.add shrink_passes].
    destruct (18 <=? size); [|reflexivity].
    destruct (used_at size <=? rect_height inner - 12); [reflexivity|].
    rewrite IH by lia. reflexivity.
Qed.

Lemma shrink_passes_shape :
  forall (fuel : nat) (size : Z),
    size <= Z.of_nat fuel + 17 ->
    (18 <= size -> passes fuel size <> []) /\
    (forall i s u, nth_error (passes fuel size) i = Some (s, u) ->
       s = size - 2 * Z.of_nat i /\ 18 <= s /\ u = used_at s) /\
    (forall i s u, nth_error (passes fuel size) i = Some (s, u) ->
       (S i < List.length (passes fuel size))%nat ->
       rect_height inner - 12 < u) /\
    (forall s u, last (passes fuel size) (0, 0) = (s, u) ->
       passes fuel size <> [] ->
       u <= rect_height inner - 12 \/ s < 20).
Proof.
  induction fuel as [|fuel IH]; intros size Hsize.
  - cbn [shrink_passes]. split; [simpl in Hsize; lia|].
    split; [intros [|i] s u H; discriminate|].
    split; [intros [|i] s u H; discriminate|].
    intros s u _ H. congruence.
  - cbn [shrink_passes].
    destruct (18 <=? size) eqn:E18.
    2:{ apply Z.leb_gt in E18. split; [lia|].
        split; [intros [|i] s u H; discriminate|].
        split; [intros [|i] s u H; discriminate|].
        intros s u _ H. congruence. }
    apply Z.leb_le in E18.
    split; [intros _; discriminate|].
    destruct (used_at size <=? rect_height inner - 12) eqn:Efit.
    + apply Z.leb_le in Efit.
      split.
      { intros [|i] s u H; [|destruct i; discriminate].
        simpl in H. injection H as Hs Hu; subst s u.
        split; [simpl; lia|]. split; [lia | reflexivity]. }
      split.
      { intros [|i] s u H Hlt; simpl in Hlt; lia. }
      intros s u Hlast _. simpl in Hlast. injection Hlast as Hs Hu; subst s u.
      left. exact Efit.
    + apply Z.leb_gt in Efit.
      assert (Hsz : size - 2 <= Z.of_nat fuel + 17) by lia.
      destruct (IH (size - 2) Hsz) as [I1 [I3 [I4 I5]]].
      split.
      { intros [|i] s u H.
        - simpl in H. injection H as Hs Hu; subst s u.
          split; [simpl; lia|]. split; [lia | reflexivity].
        - simpl in H. destruct (I3 i s u H) as [Hs [H18 Hu]].
          split; [rewrite Nat2Z.inj_succ; lia|]. split; assumption. }
      split.
      { intros [|i] s u H Hlt.
        - simpl in H. injection H as Hs Hu; subst s u. exact Efit.
        - simpl in H. apply (I4 i s u H). simpl in Hlt. lia. }
      intros s u Hlast _.
      destruct (passes fuel (size - 2)) as [|p ps] eqn:Eps.
      * simpl in Hlast. injection Hlast as Hs Hu; subst s u. right.
        destruct (Z_lt_le_dec (size - 2) 18) as [Hlt | Hge]; [lia|].
        exfalso. apply (I1 Hge). reflexivity.
      * apply (I5 s u); [|discriminate].
        cbn [last] in Hlast. exact Hlast.
Qed.

(** The shrink-to-fit loop from a start size of at least 18.  It ends
    (more loop budget changes nothing), after at least one pass.  Pass [i]
    uses the size [msg_font_sz - 2 i], never below 18; every pass but the
    last overflowed the panel; the last pass fits, or the next smaller size
    would be below 18. *)
Theorem shrink_to_fit_passes : forall msg_font_sz : Z,
  18 <= msg_font_sz ->
  let ps := shrink_to_fit font_width font_linesize text inner msg_font_sz in
  (forall extra : nat,
     passes (Z.to_nat msg_font_sz + extra)%nat msg_font_sz = ps) /\
  ps <> [] /\
  (forall i s u, nth_error ps i = Some (s, u) ->
     s = msg_font_sz - 2 * Z.of_nat i /\ 18 <= s /\ u = used_at s) /\
  (forall i s u, nth_error ps i = Some (s, u) ->
     (S i < List.length ps)%nat -> rect_height inner - 12 < u) /\
  (forall s u, last ps (0, 0) = (s, u) ->
     u <= rect_height inner - 12 \/ s < 20).
Proof.
  intros sz Hsz ps. unfold ps, shrink_to_fit.
  assert (Hfuel : sz <= Z.of_nat (Z.to_nat sz) + 17) by lia.
  destruct (shrink_passes_shape (Z.to_nat sz) sz Hfuel)
    as [H1 [H3 [H4 H5]]].
  split; [intro extra; apply shrink_passes_fuel; exact Hfuel|].
  split; [apply H1; exact Hsz|].
  split; [exact H3|]. split; [exact H4|].
  intros s u Hlast. apply (H5 s u Hlast). apply H1. exact Hsz.
Qed.

End ShrinkFacts.

Lemma shrink_to_fit_passes_witness :
  18 <= 28 /\
  let ps := shrink_to_fit (fun size s => size * Z.of_nat (String.length s))
              (fun size => size) "extraordinary pace"
              (mkRect 0 0 216 60) 28 in
  (forall extra : nat,
     shrink_passes (fun size s => size * Z.of_nat (String.length s))
       (fun size => size) (Z.to_nat 28 + extra)%nat "extraordinary pace"
       (mkRect 0 0 216 60) 28 = ps) /\
  ps <> [] /\
  (forall i s u, nth_error ps i = Some (s, u) ->
     s = 28 - 2 * Z.of_nat i /\ 18 <= s /\
     u = fst (draw_wrapped_text
                (fun t => s * Z.of_nat (String.length t)) s
                "extraordinary pace" (text_rect (mkRect 0 0 216 60))
                (32 # 25))) /\
  (forall i s u, nth_error ps i = Some (s, u) ->
     (S i < List.length ps)%nat -> rect_height (mkRect 0 0 216 60) - 12 < u) /\
  (forall s u, last ps (0, 0) = (s, u) ->
     u <= rect_height (mkRect 0 0 216 60) - 12 \/ s < 20).
Proof.
  assert (H : 18 <= 28) by lia.
  split; [exact H|].
  exact (shrink_to_fit_passes
           (fun size s => size * Z.of_nat (String.length s))
           (fun size => size) "extraordinary pace" (mkRect 0 0 216 60) 28 H).
Defined.

Lemma wrapped_lines_fit_witness :
  In ("pace", (0, 52))
     (snd (draw_wrapped_text sample_width 20 "extraordinary pace"
             (mkRect 0 0 100 50) (13 # 10))) /\
  ("pace" = EmptyString \/ In "pace" (py_split "extraordinary pace")
   \/ sample_width "pace" <= rect_width (mkRect 0 0 100 50)).
Proof.
  assert (H : In ("pace", (0, 52))
                 (snd (draw_wrapped_text sample_width 20
                         "extraordinary pace" (mkRect 0 0 100 50)
                         (13 # 10)))).
  { vm_compute. right. right. left. reflexivity. }
  split; [exact H|].
  exact (wrapped_lines_fit sample_width 20 (mkRect 0 0 100 50) (13 # 10)
           "extraordinary pace" "pace" (0, 52) H).
Defined.

(** ** Totals beyond the float range *)

(** C4 as stated fails for a total beyond the float range.  At process
    start a [set_total] request with the time string of 1 followed by 400
    zeros is accepted and stores the total [10^400].  From then on
    [float(total_seconds())] raises [OverflowError]: for the reading 0 and 8
    boxes the boxes row yields no fraction and no pointer index, and the
    pass of the display loop ends in that error. *)
Lemma pointer_fails_beyond_float_range :
  exists (resp : response) (w' : World),
    set_total dec_float dec_int huge_time_args
      (initial 0 7200 8 EmptyString EmptyString) = Ret resp w' /\
    TOTAL_SECONDS w' = 10 ^ 400 /\
    boxes_row 0 (10 ^ 400) (recompute_boxes 1000 10 300 100 500 20 8)
    = inl (OverflowError "int too large to convert to float") /\
    loop_pass 1000 10 300 100 500 20
      (recompute_boxes 1000 10 300 100 500 20 8) w'
    = Raise (OverflowError "int too large to convert to float") w'.
Proof.
  do 2 eexists. split; [vm_compute; reflexivity|].
  split; [vm_compute; reflexivity|].
  split; vm_compute; reflexivity.
Qed.

Lemma set_remaining_overflow_rejected_witness :
  state_lock running_world = false /\
  ((exists f, requests_remaining dec_float dec_int huge_time_args f /\
              float_int_limit <= Z.abs (TOTAL_SECONDS running_world))
   \/ (exists t n, args_get "seconds" huge_time_args = None /\
                   args_get "time" huge_time_args = Some t /\
                   parse_hms_to_seconds dec_int t = inr n /\
                   float_int_limit <= Z.abs n)) /\
  set_remaining dec_float dec_int huge_time_args running_world
  = Ret (rejection "int too large to convert to float") running_world.
Proof.
  assert (Hl : state_lock running_world = false) by reflexivity.
  assert (Hbig :
    (exists f, requests_remaining dec_float dec_int huge_time_args f /\
               float_int_limit <= Z.abs (TOTAL_SECONDS running_world))
    \/ (exists t n, args_get "seconds" huge_time_args = None /\
                    args_get "time" huge_time_args = Some t /\
                    parse_hms_to_seconds dec_int t = inr n /\
                    float_int_limit <= Z.abs n)).
  { right. exists huge_time, (10 ^ 400).
    split; [reflexivity|]. split; [reflexivity|].
    split; [vm_compute; reflexivity|]. vm_compute. discriminate. }
  split; [exact Hl|]. split; [exact Hbig|].
  exact (set_remaining_overflow_rejected dec_float dec_int huge_time_args
           running_world Hl Hbig).
Defined.

Lemma wf_huge_total_world : wf huge_total_world.
Proof. split; simpl; [reflexivity | discriminate]. Qed.

Lemma loop_pass_overflow_raises_witness :
  wf huge_total_world /\
  float_int_limit <= Z.abs (TOTAL_SECONDS huge_total_world) /\
  loop_pass 1000 10 300 100 500 20 sample_rects huge_total_world
  = Raise (OverflowError "int too large to convert to float")
          huge_total_world.
Proof.
  assert (Hbig : float_int_limit <= Z.abs (TOTAL_SECONDS huge_total_world))
    by (vm_compute; discriminate).
  split; [exact wf_huge_total_world|]. split; [exact Hbig|].
  exact (loop_pass_overflow_raises 1000 10 300 100 500 20 sample_rects
           huge_total_world wf_huge_total_world Hbig).
Defined.
